(** * TaskFlow service layer: a shallow embedding and its properties

    The development follows the repository's layout:
    - [TaskStatus], [Task], [User]: the SQLAlchemy models of
      [src/models/task.py] and [src/models/user.py];
    - [Schemas]: the pydantic request schemas of [src/api/schemas.py];
    - [Orm]: the part of the SQLAlchemy session / SQLite behaviour that the
      services rely on (queries, flush, constraints);
    - [TaskService], [UserService]: the service classes of
      [src/services/task_service.py] and [src/services/user_service.py];
    - [Routes]: the request handlers of [src/api/routes.py].

    A database session is a pair of tables, each a list of rows in rowid
    order.  Operations that touch the session are written in a small
    state-and-exception monad, so that a failing commit is visible as a raised
    [IntegrityError], and an integer argument that does not fit the storage's
    INTEGER type as the [OverflowError] of the driver, the way the Python
    code surfaces them. *)

From Stdlib Require Import ZArith Lia.
From stdpp Require Import base option list sorting gmap strings.

Local Open Scope Z_scope.

(** ** Models *)

(** [class TaskStatus(str, enum.Enum)] *)
Inductive TaskStatus := PENDING | IN_PROGRESS | COMPLETED | CANCELLED.

#[global] Instance TaskStatus_eq_dec : EqDecision TaskStatus.
Proof. solve_decision. Defined.

(** Iteration order of [for status in TaskStatus]. *)
Definition TaskStatus_members : list TaskStatus :=
  [PENDING; IN_PROGRESS; COMPLETED; CANCELLED].

(** [status.value] *)
Definition value (s : TaskStatus) : string :=
  match s with
  | PENDING => "pending"
  | IN_PROGRESS => "in_progress"
  | COMPLETED => "completed"
  | CANCELLED => "cancelled"
  end.

(** Timestamps are seconds on the database clock. *)
Definition datetime := Z.

Module Task.
(** A row of table [tasks].  Columns declared [nullable=False] (and the
  primary key) carry a value; the others are optional.  [created_at] has
  [server_default=func.now()] and is never assigned by the services. *)
Record t := mk {
id : Z;
title : string;
description : option string;
status : TaskStatus;
priority : option Z;
owner_id : Z;
created_at : datetime;
updated_at : option datetime;
due_date : option datetime
}.

(** The attributes of a loaded ORM instance that [setattr] can reach
  through [TaskUpdate]: in Python every one of them can hold [None],
  whatever the column says. *)
Record obj := mkobj {
o_title : option string;
o_description : option string;
o_status : option TaskStatus;
o_priority : option Z;
o_due_date : option datetime
}.

#[global] Instance obj_eq_dec : EqDecision obj.
Proof. solve_decision. Defined.

Definition load (r : t) : obj :=
mkobj (Some (title r)) (description r) (Some (status r)) (priority r)
      (due_date r).
End Task.

Module User.
(** A row of table [users]. *)
Record t := mk {
id : Z;
email : string;
username : string;
hashed_password : string;
full_name : option string;
is_active : option bool;
is_superuser : option bool;
created_at : datetime;
updated_at : option datetime
}.

(** The attributes reachable through [UserUpdate]. *)
Record obj := mkobj {
o_email : option string;
o_username : option string;
o_full_name : option string;
o_is_active : option bool
}.

#[global] Instance obj_eq_dec : EqDecision obj.
Proof. solve_decision. Defined.

Definition load (r : t) : obj :=
mkobj (Some (email r)) (Some (username r)) (full_name r) (is_active r).
End User.

(** ** The session *)

Record Session := mkSession {
  users : list User.t;
  tasks : list Task.t
}.

(** [IntegrityError] carries the message of the database; [OverflowError] is
    what the [sqlite3] driver raises for a statement parameter it cannot
    convert. *)
Inductive exn :=
  | IntegrityError (constraint : string)
  | InvalidRequestError
  | OverflowError.

Inductive result (A : Type) :=
  | Ok (a : A)
  | Raise (e : exn).
Arguments Ok {A} a.
Arguments Raise {A} e.

(** A computation reads and writes the session and may raise. *)
Definition M (A : Type) : Type := Session -> result A * Session.

Definition ret {A} (a : A) : M A := fun db => (Ok a, db).
Definition raise {A} (e : exn) : M A := fun db => (Raise e, db).
Definition bind {A B} (m : M A) (k : A -> M B) : M B :=
  fun db =>
    match m db with
    | (Ok a, db') => k a db'
    | (Raise e, db') => (Raise e, db')
    end.
Definition gets {A} (f : Session -> A) : M A := fun db => (Ok (f db), db).
Definition put_tasks (ts : list Task.t) : M unit :=
  fun db => (Ok tt, mkSession (users db) ts).
Definition put_users (us : list User.t) : M unit :=
  fun db => (Ok tt, mkSession us (tasks db)).

#[global] Instance M_ret : MRet M := @ret.
#[global] Instance M_bind : MBind M := fun A B k m => bind m k.

(** ** Query combinators *)

Module Orm.
(** SQLite's INTEGER is a signed 64-bit value, Python's [int] is unbounded. *)
Definition int64 (z : Z) : Prop := - 2 ^ 63 <= z < 2 ^ 63.

#[global] Instance int64_dec z : Decision (int64 z).
Proof. unfold int64. apply _. Defined.

(** Binding the integer parameters of a statement, which the driver does
  before the statement runs: an [int] outside the INTEGER range raises
  [OverflowError].  Every integer the services pass on to a query travels
  as a bound parameter, the LIMIT and OFFSET of a page too. *)
Definition bind_params (params : list Z) : M unit :=
if decide (Forall int64 params) then mret tt else raise OverflowError.

(** [query.first()] *)
Definition first {A} (rows : list A) : option A := head rows.

(** [query.count()] *)
Definition count {A} (rows : list A) : Z := Z.of_nat (length rows).

(** [query.offset(n)]: SQLite reads a negative OFFSET as 0. *)
Definition offset {A} (n : Z) (rows : list A) : list A :=
drop (Z.to_nat n) rows.

(** [query.limit(n)]: SQLite reads a negative LIMIT as no limit. *)
Definition limit {A} (n : Z) (rows : list A) : list A :=
if decide (n < 0) then rows else take (Z.to_nat n) rows.

(** [query.order_by(key.desc())]: the rows by decreasing key.  SQLite's
  sorter keeps rows with equal keys in the order the scan produced them,
  so a row goes behind the rows with a larger key and in front of those
  with an equal or smaller one that followed it in the scan. *)
Fixpoint insert_desc {A} (key : A -> Z) (x : A) (sorted : list A) : list A :=
match sorted with
| [] => [x]
| y :: rest =>
    if decide (key x < key y) then y :: insert_desc key x rest
    else x :: sorted
end.

Definition order_by_desc {A} (key : A -> Z) (rows : list A) : list A :=
foldr (insert_desc key) [] rows.

(** SQLite rowid assignment for an [INTEGER PRIMARY KEY]: one more than
  the largest id in the table, 1 for an empty table.  (A table whose
  largest id is the largest INTEGER gets a random unused id instead;
  ids are handed out upwards from 1, and no such table is considered.) *)
Definition next_id (ids : list Z) : Z :=
match ids with
| [] => 1
| i :: ids => 1 + foldr Z.max i ids
end.
End Orm.

(** ** Request schemas ([src/api/schemas.py]) *)

Module Schemas.
(** A pydantic field is either left unset by the caller or given a value;
  [.dict(exclude_unset=True)] keeps exactly the given ones.  An
  [Optional[...]] field can be given [None] explicitly. *)
Inductive field (A : Type) :=
| Unset
| Given (v : A).
Arguments Unset {A}.
Arguments Given {A} v.

#[global] Instance field_eq_dec {A} `{EqDecision A} : EqDecision (field A).
Proof. solve_decision. Defined.

Definition item_of {A K} (key : A -> K) (f : field A) : list K :=
match f with
| Unset => []
| Given v => [key v]
end.

Module UserCreate.
Record t := mk {
email : string;
username : string;
full_name : option string;
password : string
}.
End UserCreate.

Module UserUpdate.
Record t := mk {
email : field (option string);
username : field (option string);
full_name : field (option string);
is_active : field (option bool)
}.

(** A [(field name, value)] pair of the update dictionary. *)
Inductive item :=
| Email (v : option string)
| Username (v : option string)
| Full_name (v : option string)
| Is_active (v : option bool).

(** [user_data.dict(exclude_unset=True).items()] *)
Definition dict_exclude_unset (d : t) : list item :=
item_of Email (email d) ++ item_of Username (username d) ++
item_of Full_name (full_name d) ++ item_of Is_active (is_active d).
End UserUpdate.

Module TaskCreate.
(** [TaskBase]: there is no status field. *)
Record t := mk {
title : string;
description : option string;
priority : Z;
due_date : option datetime
}.
End TaskCreate.

Module TaskUpdate.
Record t := mk {
title : field (option string);
description : field (option string);
status : field (option TaskStatus);
priority : field (option Z);
due_date : field (option datetime)
}.

Inductive item :=
| Title (v : option string)
| Description (v : option string)
| Status (v : option TaskStatus)
| Priority (v : option Z)
| Due_date (v : option datetime).

(** [task_data.dict(exclude_unset=True).items()] *)
Definition dict_exclude_unset (d : t) : list item :=
item_of Title (title d) ++ item_of Description (description d) ++
item_of Status (status d) ++ item_of Priority (priority d) ++
item_of Due_date (due_date d).
End TaskUpdate.
End Schemas.
Import Schemas.

(** ** Task service ([src/services/task_service.py]) *)

Module TaskService.

(** [self.db.query(Task).filter(Task.id == task_id).first()] *)
Definition get_by_id_in (rows : list Task.t) (task_id : Z) : option Task.t :=
Orm.first (filter (fun t => Task.id t = task_id) rows).

Definition get_by_id (task_id : Z) : M (option Task.t) :=
Orm.bind_params [task_id];;
gets (fun db => get_by_id_in (tasks db) task_id).

(** [self.db.refresh(db_task)]: reload the row by the primary key that the
  instance carries, a key that came from the database. *)
Definition refresh (task_id : Z) : M Task.t :=
r ← gets (fun db => get_by_id_in (tasks db) task_id);
match r with
| Some t => mret t
| None => raise InvalidRequestError
end.

(** [get_by_owner]: every [TaskStatus] member is a non-empty [str], hence
  truthy, so [if status_filter:] is the test for "not None". *)
Definition get_by_owner_in (rows : list Task.t) (owner_id : Z)
  (status_filter : option TaskStatus) (skip limit : Z)
  : list Task.t * Z :=
let query := filter (fun t => Task.owner_id t = owner_id) rows in
let query :=
  match status_filter with
  | Some s => filter (fun t => Task.status t = s) query
  | None => query
  end in
let total := Orm.count query in
let tasks :=
  Orm.limit limit (Orm.offset skip
    (Orm.order_by_desc Task.created_at query)) in
(tasks, total).

(** [query.count()] binds [owner_id]; the page query binds [owner_id], the
  LIMIT and the OFFSET. *)
Definition get_by_owner (owner_id : Z) (status_filter : option TaskStatus)
  (skip limit : Z) : M (list Task.t * Z) :=
Orm.bind_params [owner_id];;
Orm.bind_params [owner_id; limit; skip];;
gets (fun db => get_by_owner_in (tasks db) owner_id status_filter skip limit).

(** [get_all]: [self.db.query(Task).offset(skip).limit(limit).all()], the
  rows in rowid order. *)
Definition get_all_in (rows : list Task.t) (skip limit : Z) : list Task.t :=
Orm.limit limit (Orm.offset skip rows).

Definition get_all (skip limit : Z) : M (list Task.t) :=
Orm.bind_params [limit; skip];;
gets (fun db => get_all_in (tasks db) skip limit).

(** [create]: the constructor call takes the four keys of [task_dict]
  together with [owner_id=owner_id] and [status=PENDING], then INSERT.
  The row gets its id and [created_at] from the database; [updated_at]
  has no insert default.  The INSERT binds the integers [priority] and
  [owner_id].  Table [tasks] has no unique column, the non-null columns
  all receive values, and SQLite does not enforce the foreign key, so
  the statement itself cannot fail. *)
Definition create (task_data : TaskCreate.t) (owner_id : Z) (now : datetime)
  : M Task.t :=
rows ← gets tasks;
let db_task :=
  Task.mk (Orm.next_id (Task.id <$> rows))
    (TaskCreate.title task_data)
    (TaskCreate.description task_data)
    PENDING
    (Some (TaskCreate.priority task_data))
    owner_id
    now
    None
    (TaskCreate.due_date task_data) in
Orm.bind_params [TaskCreate.priority task_data; owner_id];;
put_tasks (rows ++ [db_task]);;
refresh (Task.id db_task).

(** [setattr(db_task, field, value)] *)
Definition setattr (o : Task.obj) (kv : TaskUpdate.item) : Task.obj :=
match kv with
| TaskUpdate.Title v =>
    Task.mkobj v (Task.o_description o) (Task.o_status o)
      (Task.o_priority o) (Task.o_due_date o)
| TaskUpdate.Description v =>
    Task.mkobj (Task.o_title o) v (Task.o_status o)
      (Task.o_priority o) (Task.o_due_date o)
| TaskUpdate.Status v =>
    Task.mkobj (Task.o_title o) (Task.o_description o) v
      (Task.o_priority o) (Task.o_due_date o)
| TaskUpdate.Priority v =>
    Task.mkobj (Task.o_title o) (Task.o_description o) (Task.o_status o)
      v (Task.o_due_date o)
| TaskUpdate.Due_date v =>
    Task.mkobj (Task.o_title o) (Task.o_description o) (Task.o_status o)
      (Task.o_priority o) v
end.

(** The row an UPDATE writes for a modified instance, or the failure of
  the first [nullable=False] column, in table order, that would become
  NULL.  [updated_at] has [onupdate=func.now()]. *)
Definition updated_row (loaded : Task.t) (o : Task.obj) (now : datetime)
  : result Task.t :=
match Task.o_title o, Task.o_status o with
| Some ti, Some st =>
    Ok (Task.mk (Task.id loaded) ti (Task.o_description o) st
          (Task.o_priority o) (Task.owner_id loaded)
          (Task.created_at loaded) (Some now) (Task.o_due_date o))
| None, _ => Raise (IntegrityError "NOT NULL constraint failed: tasks.title")
| Some _, None =>
    Raise (IntegrityError "NOT NULL constraint failed: tasks.status")
end.

(** The integers an UPDATE binds: the UPDATE sets the attributes that
  differ from their loaded values, and [priority] is the one integer
  among them. *)
Definition update_params (loaded : Task.t) (o : Task.obj) : list Z :=
if decide (Task.o_priority o = Task.priority loaded) then []
else option_list (Task.o_priority o).

(** [self.db.commit()] after attribute assignment.  The unit of work emits
  an UPDATE only when some attribute differs from its loaded value. *)
Definition commit_update (loaded : Task.t) (o : Task.obj) (now : datetime)
  : M unit :=
if decide (o = Task.load loaded) then mret tt
else
  Orm.bind_params (update_params loaded o);;
  match updated_row loaded o now with
  | Raise e => raise e
  | Ok row =>
      rows ← gets tasks;
      put_tasks
        ((fun r => if decide (Task.id r = Task.id loaded) then row else r)
           <$> rows)
  end.

Definition update (task_id : Z) (task_data : TaskUpdate.t) (now : datetime)
  : M (option Task.t) :=
db_task ← get_by_id task_id;
match db_task with
| None => mret None
| Some loaded =>
    let update_data := TaskUpdate.dict_exclude_unset task_data in
    let o := foldl setattr (Task.load loaded) update_data in
    commit_update loaded o now;;
    t ← refresh task_id;
    mret (Some t)
end.

Definition delete (task_id : Z) : M bool :=
db_task ← get_by_id task_id;
match db_task with
| None => mret false
| Some loaded =>
    rows ← gets tasks;
    put_tasks (filter (fun r => Task.id r <> Task.id loaded) rows);;
    mret true
end.

Definition mark_completed (task_id : Z) (now : datetime)
  : M (option Task.t) :=
db_task ← get_by_id task_id;
match db_task with
| None => mret None
| Some loaded =>
    let o := setattr (Task.load loaded) (TaskUpdate.Status (Some COMPLETED)) in
    commit_update loaded o now;;
    t ← refresh task_id;
    mret (Some t)
end.

(** The grouped query of [get_stats]:
  [SELECT status, count(id) ... WHERE owner_id = ? GROUP BY status]
  has one result row per status that occurs. *)
Definition group_by_status_count (rows : list Task.t)
  : list (TaskStatus * Z) :=
(fun s => (s, Orm.count (filter (fun t => Task.status t = s) rows)))
  <$> remove_dups (Task.status <$> rows).

Definition get_stats_in (rows : list Task.t) (owner_id : Z) : gmap string Z :=
let results :=
  group_by_status_count (filter (fun t => Task.owner_id t = owner_id) rows) in
let stats : gmap string Z :=
  foldl (fun d status => <[value status := 0]> d) ∅ TaskStatus_members in
foldl (fun d '(status, count) => <[value status := count]> d) stats results.

Definition get_stats (owner_id : Z) : M (gmap string Z) :=
Orm.bind_params [owner_id];;
gets (fun db => get_stats_in (tasks db) owner_id).

End TaskService.

(** ** User service ([src/services/user_service.py]) *)

(** [passlib.context.CryptContext(schemes=["bcrypt"])]: the password hasher
    is an external library.  [pwd_hash] takes the salt it draws as an
    explicit argument.  Both operations are taken on the secrets the library
    accepts, where they return. *)
Class CryptContext := {
  pwd_hash : string -> string -> string;
  pwd_verify : string -> string -> bool
}.

Module UserService.
Section with_pwd_context.
Context {pwd_context : CryptContext}.

Definition get_by_id_in (rows : list User.t) (user_id : Z) : option User.t :=
Orm.first (filter (fun u => User.id u = user_id) rows).

Definition get_by_id (user_id : Z) : M (option User.t) :=
Orm.bind_params [user_id];;
gets (fun db => get_by_id_in (users db) user_id).

Definition get_by_email (email : string) : M (option User.t) :=
gets (fun db => Orm.first (filter (fun u => User.email u = email) (users db))).

Definition get_by_username_in (rows : list User.t) (username : string)
: option User.t :=
Orm.first (filter (fun u => User.username u = username) rows).

Definition get_by_username (username : string) : M (option User.t) :=
gets (fun db => get_by_username_in (users db) username).

(** [get_all]: [self.db.query(User).offset(skip).limit(limit).all()] *)
Definition get_all_in (rows : list User.t) (skip limit : Z) : list User.t :=
Orm.limit limit (Orm.offset skip rows).

Definition get_all (skip limit : Z) : M (list User.t) :=
Orm.bind_params [limit; skip];;
gets (fun db => get_all_in (users db) skip limit).

(** [self.db.refresh(db_user)]: reload by the primary key of the
instance. *)
Definition refresh (user_id : Z) : M User.t :=
r ← gets (fun db => get_by_id_in (users db) user_id);
match r with
| Some u => mret u
| None => raise InvalidRequestError
end.

(** INSERT into [users]: [email] and [username] are [unique=True]. *)
Definition insert (row : User.t) : M unit :=
rows ← gets users;
if decide (Exists (fun r => User.email r = User.email row) rows) then
raise (IntegrityError "UNIQUE constraint failed: users.email")
else if decide (Exists (fun r => User.username r = User.username row) rows) then
raise (IntegrityError "UNIQUE constraint failed: users.username")
else put_users (rows ++ [row]).

(** [create]: [is_active] and [is_superuser] take their column defaults,
[created_at] the server default. *)
Definition create (user_data : UserCreate.t) (salt : string) (now : datetime)
: M User.t :=
let hashed_password := pwd_hash salt (UserCreate.password user_data) in
rows ← gets users;
let db_user :=
User.mk (Orm.next_id (User.id <$> rows))
(UserCreate.email user_data)
(UserCreate.username user_data)
hashed_password
(UserCreate.full_name user_data)
(Some true)
(Some false)
now
None in
insert db_user;;
refresh (User.id db_user).

(** [setattr(db_user, field, value)] *)
Definition setattr (o : User.obj) (kv : UserUpdate.item) : User.obj :=
match kv with
| UserUpdate.Email v =>
User.mkobj v (User.o_username o) (User.o_full_name o) (User.o_is_active o)
| UserUpdate.Username v =>
User.mkobj (User.o_email o) v (User.o_full_name o) (User.o_is_active o)
| UserUpdate.Full_name v =>
User.mkobj (User.o_email o) (User.o_username o) v (User.o_is_active o)
| UserUpdate.Is_active v =>
User.mkobj (User.o_email o) (User.o_username o) (User.o_full_name o) v
end.

(** The row an UPDATE writes, or the failure of the first of [email] and
[username] ([nullable=False]) that would become NULL. *)
Definition updated_row (loaded : User.t) (o : User.obj) (now : datetime)
: result User.t :=
match User.o_email o, User.o_username o with
| Some e, Some n =>
Ok (User.mk (User.id loaded) e n (User.hashed_password loaded)
      (User.o_full_name o) (User.o_is_active o)
      (User.is_superuser loaded) (User.created_at loaded) (Some now))
| None, _ => Raise (IntegrityError "NOT NULL constraint failed: users.email")
| Some _, None =>
Raise (IntegrityError "NOT NULL constraint failed: users.username")
end.

(** Another row already holds the value a unique column is changed to. *)
Definition taken {A} `{EqDecision A} (col : User.t -> A) (loaded row : User.t)
(rows : list User.t) : Prop :=
col row <> col loaded /\
Exists (fun r => User.id r <> User.id loaded /\ col r = col row) rows.

#[global] Instance taken_dec {A} `{EqDecision A} (col : User.t -> A)
loaded row rows : Decision (taken col loaded row rows).
Proof. unfold taken. apply _. Defined.

(** [self.db.commit()] after attribute assignment: no UPDATE without a net
change; otherwise the UPDATE is subject to the NOT NULL and UNIQUE
constraints of the table.  [UserUpdate] has no integer field, so the
UPDATE binds no integer but the key of the loaded row. *)
Definition commit_update (loaded : User.t) (o : User.obj) (now : datetime)
: M unit :=
if decide (o = User.load loaded) then mret tt
else
match updated_row loaded o now with
| Raise e => raise e
| Ok row =>
  rows ← gets users;
  if decide (taken User.email loaded row rows) then
    raise (IntegrityError "UNIQUE constraint failed: users.email")
  else if decide (taken User.username loaded row rows) then
    raise (IntegrityError "UNIQUE constraint failed: users.username")
  else
    put_users
      ((fun r => if decide (User.id r = User.id loaded) then row else r)
         <$> rows)
end.

Definition update (user_id : Z) (user_data : UserUpdate.t) (now : datetime)
: M (option User.t) :=
db_user ← get_by_id user_id;
match db_user with
| None => mret None
| Some loaded =>
let update_data := UserUpdate.dict_exclude_unset user_data in
let o := foldl setattr (User.load loaded) update_data in
commit_update loaded o now;;
u ← refresh user_id;
mret (Some u)
end.

(** [self.db.delete(db_user); self.db.commit()].  [User.tasks] is a
[relationship] without delete cascade, so the unit of work first
detaches the user's tasks by an UPDATE that sets their [owner_id] to
NULL; [Task.owner_id] is [nullable=False], and that UPDATE is rejected
whenever there is a task to detach. *)
Definition commit_delete (loaded : User.t) : M unit :=
children ← gets (fun db =>
filter (fun t => Task.owner_id t = User.id loaded) (tasks db));
match children with
| _ :: _ =>
raise (IntegrityError "NOT NULL constraint failed: tasks.owner_id")
| [] =>
rows ← gets users;
put_users (filter (fun r => User.id r <> User.id loaded) rows)
end.

Definition delete (user_id : Z) : M bool :=
db_user ← get_by_id user_id;
match db_user with
| None => mret false
| Some loaded => commit_delete loaded;; mret true
end.

Definition verify_password (plain_password hashed_password : string) : bool :=
pwd_verify plain_password hashed_password.

Definition authenticate (username password : string) : M (option User.t) :=
user ← get_by_username username;
match user with
| None => mret None
| Some u =>
if verify_password password (User.hashed_password u)
then mret (Some u)
else mret None
end.

End with_pwd_context.
End UserService.

(** ** Request boundary ([src/api/routes.py]) *)

(** What a handler gives the framework: the value it returns, an
    [HTTPException] it raises, or the [ValidationError] that pydantic raises
    inside a response conversion.  Exceptions of the session stay [Raise]. *)
Inductive reply (A : Type) :=
  | Reply (a : A)
  | HTTPException (status_code : Z) (detail : string)
  | ValidationError.
Arguments Reply {A} a.
Arguments HTTPException {A} status_code detail.
Arguments ValidationError {A}.

(** [user_to_response] and [task_to_response] of [src/api/schemas.py] are
    [UserInDB.from_orm(...).dict(...)] and [TaskInDB.from_orm(...).dict()]:
    validation and serialisation by the external pydantic library.  A
    conversion yields the response dictionary or raises. *)
Class ResponseSchemas := {
  UserResponse : Type;
  TaskResponse : Type;
  user_to_response : User.t -> option UserResponse;
  task_to_response : Task.t -> option TaskResponse
}.

Module Routes.

(** [TaskListResponse] *)
Record TaskListResponse `{ResponseSchemas} := mkTaskListResponse {
list_tasks : list TaskResponse;
list_total : Z;
list_page : Z;
list_per_page : Z
}.

Section handlers.
Context {pwd_context : CryptContext} {schemas : ResponseSchemas}.


(** [[x_to_response(o) for o in objs]]: the first failing conversion
raises. *)
Definition respond_all {A B} (to_response : A -> option B) (objs : list A)
: reply (list B) :=
match mapM to_response objs with
| Some rs => Reply rs
| None => ValidationError
end.


Definition list_users (skip limit : Z) : M (reply (list UserResponse)) :=
users ← UserService.get_all skip limit;
mret (respond_all user_to_response users).





Definition list_user_tasks (user_id : Z) (status_filter : option TaskStatus)
(page per_page : Z) : M (reply TaskListResponse) :=
user ← UserService.get_by_id user_id;
match user with
| None => mret (HTTPException 404 "User not found")
| Some _ =>
  let skip := (page - 1) * per_page in
  '(tasks, total) ← TaskService.get_by_owner user_id status_filter skip per_page;
  mret (match respond_all task_to_response tasks with
        | Reply rs => Reply (mkTaskListResponse _ rs total page per_page)
        | HTTPException c d => HTTPException c d
        | ValidationError => ValidationError
        end)
end.





End handlers.
End Routes.

(** ** Specification-side notions *)

(** The filtered set of [listByOwner]: owned by [owner] and, when a status
    filter is given, in that status. *)
Definition matches (owner : Z) (sf : option TaskStatus) (t : Task.t) : Prop :=
  Task.owner_id t = owner /\
  match sf with Some s => Task.status t = s | None => True end.

#[global] Instance matches_dec owner sf t : Decision (matches owner sf t).
Proof. unfold matches. destruct sf; apply _. Defined.

(** "Most recent first": [a] may stand before [b] when [a] was created at
    the same time as [b] or later. *)
Definition newest_first (a b : Task.t) : Prop :=
  Task.created_at b <= Task.created_at a.

(** An integer argument that the storage can hold. *)
Definition storable (z : Z) : Prop :=
  - 9223372036854775808 <= z <= 9223372036854775807.

#[global] Instance storable_dec z : Decision (storable z).
Proof. unfold storable. apply _. Defined.

(** Merge semantics of one field of a partial update. *)
Definition merged {A} (f : field A) (old : A) : A :=
  match f with
  | Unset => old
  | Given v => v
  end.

(** [u] is [old] with the given fields of [d] merged in; the columns that
    [UserUpdate] cannot name, other than [updated_at], are those of [old]. *)
Definition user_merge_of (old : User.t) (d : UserUpdate.t) (u : User.t) : Prop :=
  Some (User.email u) = merged (UserUpdate.email d) (Some (User.email old)) /\
  Some (User.username u) =
    merged (UserUpdate.username d) (Some (User.username old)) /\
  User.full_name u = merged (UserUpdate.full_name d) (User.full_name old) /\
  User.is_active u = merged (UserUpdate.is_active d) (User.is_active old) /\
  User.id u = User.id old /\
  User.hashed_password u = User.hashed_password old /\
  User.is_superuser u = User.is_superuser old /\
  User.created_at u = User.created_at old.

Definition task_merge_of (old : Task.t) (d : TaskUpdate.t) (t : Task.t) : Prop :=
  Some (Task.title t) = merged (TaskUpdate.title d) (Some (Task.title old)) /\
  Task.description t = merged (TaskUpdate.description d) (Task.description old) /\
  Some (Task.status t) = merged (TaskUpdate.status d) (Some (Task.status old)) /\
  Task.priority t = merged (TaskUpdate.priority d) (Task.priority old) /\
  Task.due_date t = merged (TaskUpdate.due_date d) (Task.due_date old) /\
  Task.id t = Task.id old /\
  Task.owner_id t = Task.owner_id old /\
  Task.created_at t = Task.created_at old.


(** The storage accepts a task update of the stored task [old]: no NULL for
    a [nullable=False] column, and no new priority that the storage cannot
    hold. *)
Definition task_update_accepted (old : Task.t) (d : TaskUpdate.t) : Prop :=
  TaskUpdate.title d <> Given None /\ TaskUpdate.status d <> Given None /\
  forall p, TaskUpdate.priority d = Given (Some p) ->
    Task.priority old <> Some p -> storable p.

(** The result and the final session of running a computation. *)
Definition returns {A} (m : M A) (db : Session) (a : A) (db' : Session) : Prop :=
  m db = (Ok a, db').

Definition raises {A} (m : M A) (db : Session) : Prop :=
  exists e, m db = (Raise e, db).

(** The computation fails with the exception [e] and leaves the session as
    it was. *)
Definition raises_exn {A} (m : M A) (db : Session) (e : exn) : Prop :=
  m db = (Raise e, db).

Definition is_IntegrityError (e : exn) : Prop :=
  exists constraint, e = IntegrityError constraint.

(** ** Sample data

    A small store used to run the services on concrete inputs: two users,
    the first of whom owns three tasks. *)

(** A stand-in hasher for the examples: it tags the secret and ignores the
    salt.  The properties below never look inside the real bcrypt hasher. *)
Definition sample_pwd_context : CryptContext := {|
  pwd_hash := fun _ secret => "$2b$" +:+ secret;
  pwd_verify := fun secret digest => bool_decide (digest = "$2b$" +:+ secret)
|}.

(** A stand-in for the response conversions in the examples: every record
    converts, to itself. *)
Definition sample_schemas : ResponseSchemas := {|
  UserResponse := User.t;
  TaskResponse := Task.t;
  user_to_response := Some;
  task_to_response := Some
|}.

Definition sample_alice : User.t :=
  User.mk 1 "a@x.com" "alice" "$2b$wonderland1" (Some "Alice")
    (Some true) (Some false) 10 None.

Definition sample_bob : User.t :=
  User.mk 2 "b@x.com" "bob" "$2b$builder22" None (Some true) (Some false) 11 None.

Definition sample_tasks : list Task.t :=
  [ Task.mk 1 "T1" None PENDING (Some 3) 1 20 None None;
    Task.mk 2 "T2" None CANCELLED (Some 1) 1 30 None None;
    Task.mk 3 "T3" (Some "third") COMPLETED (Some 5) 1 25 (Some 28) None ].

Definition sample_db : Session := mkSession [sample_alice; sample_bob] sample_tasks.

Definition sample_registration : UserCreate.t :=
  UserCreate.mk "c@x.com" "carol" None "correcthorse1".

(** The two scenarios of the specification, as runs of the services on an
    empty store (the commit times are successive clock readings). *)
Definition empty_db : Session := mkSession [] [].

Definition scenario_complete : M (Task.t * option Task.t * gmap string Z) :=
  a ← @UserService.create sample_pwd_context
         (UserCreate.mk "a@x.com" "a" None "password1") "salt" 1;
  t ← TaskService.create (TaskCreate.mk "T1" None 3 None) (User.id a) 2;
  c ← TaskService.mark_completed (Task.id t) 3;
  stats ← TaskService.get_stats (User.id a);
  mret (t, c, stats).

Definition scenario_page : M (list Task.t * Z) :=
  a ← @UserService.create sample_pwd_context
         (UserCreate.mk "a@x.com" "a" None "password1") "salt" 1;
  TaskService.create (TaskCreate.mk "T1" None 1 None) (User.id a) 2;;
  TaskService.create (TaskCreate.mk "T2" None 1 None) (User.id a) 3;;
  TaskService.create (TaskCreate.mk "T3" None 1 None) (User.id a) 4;;
  TaskService.create (TaskCreate.mk "T4" None 1 None) (User.id a) 5;;
  TaskService.create (TaskCreate.mk "T5" None 1 None) (User.id a) 6;;
  TaskService.get_by_owner (User.id a) None 0 3.

(** ** Store consistency

    What the table declarations promise of every store: [id] is the primary
    key of [users] and of [tasks], and [users.email] and [users.username]
    are [unique=True]. *)
Definition consistent (db : Session) : Prop :=
  NoDup (User.id <$> users db) /\
  NoDup (User.email <$> users db) /\
  NoDup (User.username <$> users db) /\
  NoDup (Task.id <$> tasks db).

(** * Properties *)

(** ** Statement parameters *)

Lemma storable_int64 (z : Z) : storable z <-> Orm.int64 z.
Proof. unfold storable, Orm.int64. lia. Qed.

Lemma bind_params_run {B} (params : list Z) (k : M B) (db : Session) :
  (Orm.bind_params params;; k) db =
  if decide (Forall Orm.int64 params) then k db else (Raise OverflowError, db).
Proof.
  unfold Orm.bind_params, mbind, M_bind, bind.
  by destruct (decide (Forall Orm.int64 params)).
Qed.

Lemma bind_params_ok {B} (params : list Z) (k : M B) (db : Session) :
  Forall storable params -> (Orm.bind_params params;; k) db = k db.
Proof.
  intros Hp. rewrite bind_params_run, decide_True; [done |].
  eapply Forall_impl; [exact Hp |]. intros z. apply storable_int64.
Qed.

Lemma bind_params_overflow {B} (params : list Z) (k : M B) (db : Session) :
  Exists (fun z => ~ storable z) params ->
  (Orm.bind_params params;; k) db = (Raise OverflowError, db).
Proof.
  intros Hp. rewrite bind_params_run, decide_False; [done |].
  intros Hall. apply Exists_exists in Hp as (z & Hz & Hno).
  rewrite Forall_forall in Hall. by apply Hno, storable_int64, Hall.
Qed.

(** Decide a goal about the range of bound parameters. *)
Ltac in_range :=
  rewrite ?Forall_cons, ?Forall_nil, <- ?storable_int64 in *; tauto.

(** ** Ordering and paging *)

Lemma insert_desc_perm {A} (key : A -> Z) (x : A) (l : list A) :
  Orm.insert_desc key x l ≡ₚ x :: l.
Proof.
  induction l as [|y l IH]; [done |]. cbn [Orm.insert_desc].
  case_decide; [| done]. rewrite IH. apply Permutation_swap.
Qed.

Lemma order_by_desc_perm {A} (key : A -> Z) (rows : list A) :
  Orm.order_by_desc key rows ≡ₚ rows.
Proof.
  unfold Orm.order_by_desc. induction rows as [|x rows IH]; [done |].
  cbn [foldr]. by rewrite insert_desc_perm, IH.
Qed.

Lemma insert_desc_sorted {A} (key : A -> Z) (x : A) (l : list A) :
  StronglySorted (fun a b => key b <= key a) l ->
  StronglySorted (fun a b => key b <= key a) (Orm.insert_desc key x l).
Proof.
  induction l as [|y l IH]; intros Hl; cbn [Orm.insert_desc].
  - repeat constructor.
  - apply StronglySorted_inv in Hl as [Hl Hy]. case_decide as Hlt.
    + constructor; [by apply IH |].
      rewrite insert_desc_perm. constructor; [lia | done].
    + constructor; [by constructor |]. constructor; [lia |].
      eapply Forall_impl; [exact Hy |]. intros z Hz. cbn in Hz. lia.
Qed.

Lemma order_by_desc_sorted {A} (key : A -> Z) (rows : list A) :
  StronglySorted (fun a b => key b <= key a) (Orm.order_by_desc key rows).
Proof.
  unfold Orm.order_by_desc. induction rows as [|x rows IH]; [constructor |].
  cbn [foldr]. by apply insert_desc_sorted.
Qed.

(** Rows with equal keys keep the order of the scan. *)
Lemma order_by_desc_stable {A} (key : A -> Z) (rows : list A) (k : Z) :
  filter (fun r => key r = k) (Orm.order_by_desc key rows)
  = filter (fun r => key r = k) rows.
Proof.
  unfold Orm.order_by_desc. induction rows as [|x rows IH]; [done |].
  cbn [foldr]. rewrite filter_cons, <- IH. clear IH.
  induction (foldr (Orm.insert_desc key) [] rows) as [|y l IHl];
    [done |].
  cbn [Orm.insert_desc].
  destruct (decide (key x < key y)) as [Hlt|_]; [| by rewrite filter_cons].
  rewrite (filter_cons _ y (Orm.insert_desc key x l)), IHl.
  rewrite (filter_cons _ y l).
  repeat case_decide; try done; lia.
Qed.

Lemma window_sorted {A} (R : relation A) (n m : nat) (l : list A) :
  StronglySorted R l -> StronglySorted R (take m (drop n l)).
Proof.
  intros Hl.
  rewrite <- (take_drop n l) in Hl.
  apply StronglySorted_app_1_r in Hl.
  rewrite <- (take_drop m (drop n l)) in Hl.
  by apply StronglySorted_app_1_l in Hl.
Qed.

Lemma window_subseteq {A} (n m : nat) (l : list A) : take m (drop n l) ⊆ l.
Proof. etrans; [apply subseteq_take | apply subseteq_drop]. Qed.

Lemma limit_nonneg {A} (n : Z) (rows : list A) :
  0 <= n -> Orm.limit n rows = take (Z.to_nat n) rows.
Proof. intros Hn. unfold Orm.limit. case_decide; [lia | done]. Qed.

Lemma limit_nil {A} (n : Z) : Orm.limit n (@nil A) = [].
Proof. unfold Orm.limit. case_decide; [done | by rewrite take_nil]. Qed.

(** The two chained [.filter] calls select the filtered set. *)
Lemma owner_status_filter (rows : list Task.t) owner sf :
  match sf with
  | Some s =>
      filter (fun t => Task.status t = s)
        (filter (fun t => Task.owner_id t = owner) rows)
  | None => filter (fun t => Task.owner_id t = owner) rows
  end = filter (matches owner sf) rows.
Proof.
  destruct sf as [s|].
  - rewrite list_filter_filter. apply list_filter_iff.
    intros t. unfold matches. tauto.
  - apply list_filter_iff. intros t. unfold matches. tauto.
Qed.

Lemma get_by_owner_in_eq rows owner sf skip limit :
  TaskService.get_by_owner_in rows owner sf skip limit =
  (Orm.limit limit (Orm.offset skip
     (Orm.order_by_desc Task.created_at (filter (matches owner sf) rows))),
   Orm.count (filter (matches owner sf) rows)).
Proof.
  unfold TaskService.get_by_owner_in. cbv zeta.
  by rewrite owner_status_filter.
Qed.

(** A run of [get_by_owner]: the two queries bind the owner id, the LIMIT
    and the OFFSET. *)
Lemma get_by_owner_run (db : Session) owner sf skip limit :
  TaskService.get_by_owner owner sf skip limit db =
  if decide (storable owner /\ storable skip /\ storable limit) then
    (Ok (TaskService.get_by_owner_in (tasks db) owner sf skip limit), db)
  else (Raise OverflowError, db).
Proof.
  unfold TaskService.get_by_owner. rewrite !bind_params_run.
  repeat case_decide; try done; exfalso; in_range.
Qed.

(** C1 (as amended): for skip >= 0 and limit >= 0, when the owner id, skip
    and limit are integers the storage can hold (signed 64-bit),
    [get_by_owner] returns [(page, total)] and leaves the session as it was;
    [total] is the number of stored tasks in the filtered set (owner, and
    status when a filter is given), whatever skip and limit are; there is an
    ordering of the filtered set, most recent [created_at] first, of which
    [page] is the window that starts at offset skip and has at most limit
    elements; in particular [page] holds only stored tasks of the filtered
    set and is itself ordered most recent first.  When one of the three
    integers is outside that range, the call raises [OverflowError]. *)
Theorem get_by_owner_page (db : Session) (owner : Z) (sf : option TaskStatus)
    (skip limit : Z) :
  0 <= skip -> 0 <= limit ->
  let matching := filter (matches owner sf) (tasks db) in
  if decide (storable owner /\ storable skip /\ storable limit) then
    exists (ordered page : list Task.t) (total : Z),
      returns (TaskService.get_by_owner owner sf skip limit) db (page, total) db /\
      total = Z.of_nat (length matching) /\
      (forall skip' limit',
         snd (TaskService.get_by_owner_in (tasks db) owner sf skip' limit') = total) /\
      ordered ≡ₚ matching /\
      StronglySorted newest_first ordered /\
      page = take (Z.to_nat limit) (drop (Z.to_nat skip) ordered) /\
      (length page <= Z.to_nat limit)%nat /\
      (forall t, t ∈ page -> t ∈ tasks db /\ matches owner sf t) /\
      StronglySorted newest_first page
  else
    raises_exn (TaskService.get_by_owner owner sf skip limit) db OverflowError.
Proof.
  intros Hskip Hlimit matching.
  destruct (decide (storable owner /\ storable skip /\ storable limit))
    as [Hok|Hno].
  - set (ordered := Orm.order_by_desc Task.created_at matching).
    exists ordered, (take (Z.to_nat limit) (drop (Z.to_nat skip) ordered)),
      (Z.of_nat (length matching)).
    assert (Hsorted : StronglySorted newest_first ordered)
      by apply (order_by_desc_sorted Task.created_at).
    assert (Hperm : ordered ≡ₚ matching) by apply order_by_desc_perm.
    assert (Hin : forall t,
               t ∈ take (Z.to_nat limit) (drop (Z.to_nat skip) ordered) ->
               t ∈ tasks db /\ matches owner sf t).
    { intros t Ht. apply window_subseteq in Ht. rewrite Hperm in Ht.
      apply list_elem_of_filter in Ht. tauto. }
    split_and!; try done.
    + unfold returns. rewrite get_by_owner_run, decide_True by done.
      rewrite get_by_owner_in_eq, limit_nonneg by done. done.
    + intros skip' limit'. by rewrite get_by_owner_in_eq.
    + rewrite length_take. lia.
    + by apply window_sorted.
  - unfold raises_exn. by rewrite get_by_owner_run, decide_False.
Qed.

(** C9 (as amended): when skip is at least the size of the filtered set and
    the owner id, skip and limit are integers the storage can hold,
    [get_by_owner] returns no task, for every such limit, and the total is
    still the size of the whole filtered set; when one of the three integers
    is outside the signed 64-bit range, the call raises [OverflowError]. *)
Theorem get_by_owner_skip_past_end (db : Session) (owner : Z)
    (sf : option TaskStatus) (skip limit : Z) :
  Z.of_nat (length (filter (matches owner sf) (tasks db))) <= skip ->
  if decide (storable owner /\ storable skip /\ storable limit) then
    returns (TaskService.get_by_owner owner sf skip limit) db
      ([], Z.of_nat (length (filter (matches owner sf) (tasks db)))) db
  else
    raises_exn (TaskService.get_by_owner owner sf skip limit) db OverflowError.
Proof.
  intros Hskip.
  destruct (decide (storable owner /\ storable skip /\ storable limit))
    as [Hok|Hno].
  - unfold returns.
    rewrite get_by_owner_run, decide_True by done.
    rewrite get_by_owner_in_eq. unfold Orm.offset, Orm.count.
    rewrite drop_ge; [by rewrite limit_nil |].
    rewrite order_by_desc_perm. lia.
  - unfold raises_exn. by rewrite get_by_owner_run, decide_False.
Qed.

(** ** Point lookups in a table *)

Section table.
Context {A : Type} (key : A -> Z).

Local Abbreviation lookup_key rows i :=
(Orm.first (filter (fun r => key r = i) rows)).

Lemma lookup_key_Some rows i r :
lookup_key rows i = Some r -> key r = i /\ r ∈ rows.
Proof.
unfold Orm.first. intros H.
apply head_Some_elem_of, list_elem_of_filter in H. tauto.
Qed.

Lemma lookup_key_None rows i :
lookup_key rows i = None <-> forall r, r ∈ rows -> key r <> i.
Proof.
unfold Orm.first. rewrite head_None. split.
- intros H r Hr Hk.
  by apply (filter_nil_not_elem_of (fun r => key r = i) rows r).
- intros H. induction rows as [|x rows IH]; [done |].
  rewrite filter_cons_False.
  + apply IH. intros r Hr. apply H. by right.
  + apply H. by left.
Qed.

Lemma lookup_key_is_Some rows i :
is_Some (lookup_key rows i) <-> exists r, r ∈ rows /\ key r = i.
Proof.
split.
- intros [r Hr]. apply lookup_key_Some in Hr. exists r. tauto.
- intros (r & Hr & Hk). destruct (lookup_key rows i) eqn:E; [eauto |].
  rewrite lookup_key_None in E. by destruct (E r Hr).
Qed.

(** [UPDATE ... WHERE id = i] followed by a lookup of [i]. *)
Lemma lookup_key_update rows i row :
key row = i -> is_Some (lookup_key rows i) ->
lookup_key ((fun r => if decide (key r = i) then row else r) <$> rows) i
= Some row.
Proof.
intros Hrow. unfold Orm.first.
induction rows as [|x rows IH]; intros Hsome.
- by destruct Hsome.
- rewrite fmap_cons. destruct (decide (key x = i)) as [Hx|Hx].
  + by rewrite filter_cons_True.
  + rewrite filter_cons_False by done.
    rewrite filter_cons_False in Hsome by done. by apply IH.
Qed.

Lemma lookup_key_update_ne rows i j row :
key row = i -> j <> i ->
lookup_key ((fun r => if decide (key r = i) then row else r) <$> rows) j
= lookup_key rows j.
Proof.
intros Hrow Hne. unfold Orm.first.
induction rows as [|x rows IH]; [done |].
rewrite fmap_cons. destruct (decide (key x = i)) as [Hx|Hx].
- rewrite !filter_cons_False by congruence. apply IH.
- destruct (decide (key x = j)) as [Hj|Hj].
  + by rewrite !filter_cons_True.
  + rewrite !filter_cons_False by done. apply IH.
Qed.



(** INSERT of a row with a fresh key. *)
Lemma lookup_key_insert rows row :
lookup_key rows (key row) = None ->
lookup_key (rows ++ [row]) (key row) = Some row.
Proof.
unfold Orm.first. rewrite head_None. intros H.
rewrite filter_app, H. by rewrite filter_cons_True.
Qed.

Lemma lookup_key_insert_ne rows row j :
j <> key row -> lookup_key (rows ++ [row]) j = lookup_key rows j.
Proof.
intros Hne.
rewrite filter_app, filter_cons_False by congruence.
by rewrite filter_nil, app_nil_r.
Qed.

Lemma foldr_max_bounds (i : Z) (ids : list Z) :
i <= foldr Z.max i ids /\ forall j, j ∈ ids -> j <= foldr Z.max i ids.
Proof.
induction ids as [|k ids [IHi IH]]; cbn [foldr].
- split; [lia | intros j Hj; by apply elem_of_nil in Hj].
- split; [lia |]. intros j Hj. apply elem_of_cons in Hj as [->|Hj]; [lia |].
  specialize (IH j Hj). lia.
Qed.

Lemma next_id_above rows r :
r ∈ rows -> key r < Orm.next_id (key <$> rows).
Proof.
destruct rows as [|x rows]; intros Hr; [by apply elem_of_nil in Hr |].
rewrite fmap_cons. unfold Orm.next_id.
destruct (foldr_max_bounds (key x) (key <$> rows)) as [Hx Hrows].
apply elem_of_cons in Hr as [->|Hr]; [lia |].
specialize (Hrows (key r) (list_elem_of_fmap_2 key _ _ Hr)). lia.
Qed.

Lemma next_id_fresh rows :
lookup_key rows (Orm.next_id (key <$> rows)) = None.
Proof.
apply lookup_key_None. intros r Hr. apply next_id_above in Hr. lia.
Qed.
End table.

(** ** Uniqueness of keys *)

Section columns.
Context {A B : Type} `{EqDecision B} (key : A -> Z) (col : A -> B).

Lemma fmap_key_replace (rows : list A) (i : Z) (row : A) :
  key row = i ->
  key <$> ((fun r => if decide (key r = i) then row else r) <$> rows)
  = key <$> rows.
Proof.
  intros Hrow. rewrite <- list_fmap_compose. apply list_fmap_ext.
  intros _ r _. cbn. by destruct (decide (key r = i)); [congruence |].
Qed.

Lemma replace_absent (rows : list A) (i : Z) (row : A) :
  i ∉ key <$> rows ->
  (fun r => if decide (key r = i) then row else r) <$> rows = rows.
Proof.
  intros Hi. rewrite <- (list_fmap_id rows) at 2. apply list_fmap_ext.
  intros j r Hr. cbn. destruct (decide (key r = i)) as [<-|]; [| done].
  destruct Hi. apply list_elem_of_fmap_2.
  by apply list_elem_of_lookup_2 in Hr.
Qed.

Lemma NoDup_col_replace (rows : list A) (i : Z) (row : A) :
  NoDup (key <$> rows) -> NoDup (col <$> rows) ->
  (forall r, r ∈ rows -> key r <> i -> col r <> col row) ->
  NoDup (col <$> ((fun r => if decide (key r = i) then row else r) <$> rows)).
Proof.
  induction rows as [|x rows IH]; intros Hk Hc Hfree; [constructor |].
  rewrite !fmap_cons in *. apply NoDup_cons in Hk as [Hxk Hk].
  apply NoDup_cons in Hc as [Hxc Hc].
  destruct (decide (key x = i)) as [Hx|Hx].
  - rewrite replace_absent by congruence. apply NoDup_cons. split; [| done].
    intros Hin. apply list_elem_of_fmap in Hin as (r & Heq & Hr).
    apply (Hfree r); [by right | | done].
    intros Hri. apply Hxk. rewrite Hx, <- Hri. by apply list_elem_of_fmap_2.
  - apply NoDup_cons. split.
    + intros Hin. apply list_elem_of_fmap in Hin as (r' & Heq & Hr').
      apply list_elem_of_fmap in Hr' as (r & -> & Hr).
      destruct (decide (key r = i)).
      * apply (Hfree x); [by left | done | done].
      * apply Hxc. rewrite Heq. by apply list_elem_of_fmap_2.
    + apply IH; [done | done |]. intros r Hr. apply Hfree. by right.
Qed.

(** A column without duplicates identifies the row. *)
Lemma NoDup_col_inj (rows : list A) (r1 r2 : A) :
  NoDup (col <$> rows) -> r1 ∈ rows -> r2 ∈ rows -> col r1 = col r2 -> r1 = r2.
Proof.
  induction rows as [|x rows IH]; intros Hc H1 H2 Heq.
  - by apply elem_of_nil in H1.
  - rewrite fmap_cons in Hc. apply NoDup_cons in Hc as [Hx Hc].
    apply elem_of_cons in H1 as [->|H1]; apply elem_of_cons in H2 as [->|H2].
    + done.
    + destruct Hx. rewrite Heq. by apply list_elem_of_fmap_2.
    + destruct Hx. rewrite <- Heq. by apply list_elem_of_fmap_2.
    + by apply IH.
Qed.

Lemma NoDup_col_filter (P : A -> Prop) `{forall x, Decision (P x)}
    (rows : list A) :
  NoDup (col <$> rows) -> NoDup (col <$> filter P rows).
Proof.
  intros Hc. eapply sublist_NoDup; [exact Hc |].
  apply fmap_sublist, sublist_filter.
Qed.

End columns.

(** With a duplicate-free column, [filter(col == v).first()] finds the one
    row that has the value. *)
Lemma first_by_col_exact {A B : Type} `{EqDecision B} (col : A -> B)
    (rows : list A) (v : B) (r : A) :
  NoDup (col <$> rows) ->
  Orm.first (filter (fun x => col x = v) rows) = Some r <->
  r ∈ rows /\ col r = v.
Proof.
  intros Hc. unfold Orm.first. split.
  - intros Hh. apply head_Some_elem_of, list_elem_of_filter in Hh. tauto.
  - intros [Hr Hv].
    destruct (head (filter (fun x => col x = v) rows)) as [r'|] eqn:Hh.
    + f_equal. apply head_Some_elem_of, list_elem_of_filter in Hh as [Hv' Hr'].
      apply (NoDup_col_inj col rows); [done | done | done | congruence].
    + apply head_None in Hh.
      by destruct (filter_nil_not_elem_of (fun x => col x = v) rows r Hh Hv).
Qed.

Lemma run_gets {A B} (f : Session -> A) (k : A -> M B) (db : Session) :
  (gets f ≫= k) db = k (f db) db.
Proof. done. Qed.

(** Unfold one run of a computation. *)
Ltac run :=
  unfold returns, raises, raises_exn, TaskService.refresh,
    mbind, M_bind, bind, mret, M_ret, ret, gets, raise,
    put_tasks, put_users in *;
  cbn [fst snd tasks users] in *.

(** ** Task service *)

(** [get_by_id] binds the id, then looks it up. *)
Lemma task_get_by_id_run (db : Session) (task_id : Z) :
  TaskService.get_by_id task_id db =
  if decide (storable task_id)
  then (Ok (TaskService.get_by_id_in (tasks db) task_id), db)
  else (Raise OverflowError, db).
Proof.
  unfold TaskService.get_by_id. rewrite bind_params_run.
  repeat case_decide; try done; exfalso; in_range.
Qed.

Lemma task_get_by_id_bind {B} (db : Session) (task_id : Z)
    (k : option Task.t -> M B) :
  (TaskService.get_by_id task_id ≫= k) db =
  if decide (storable task_id)
  then k (TaskService.get_by_id_in (tasks db) task_id) db
  else (Raise OverflowError, db).
Proof.
  unfold mbind, M_bind, bind. rewrite task_get_by_id_run.
  by case_decide.
Qed.

Lemma task_updated_row_id loaded o now row :
  TaskService.updated_row loaded o now = Ok row -> Task.id row = Task.id loaded.
Proof.
  unfold TaskService.updated_row.
  destruct (Task.o_title o), (Task.o_status o); intros [= <-]; done.
Qed.

Lemma task_updated_row_raise loaded o now e :
  TaskService.updated_row loaded o now = Raise e -> is_IntegrityError e.
Proof.
  unfold TaskService.updated_row, is_IntegrityError.
  destruct (Task.o_title o), (Task.o_status o); intros [= <-]; eauto.
Qed.

(** What [commit], [refresh] and [return] do once the instance is loaded
    and its attributes assigned. *)
Lemma task_commit_refresh (db : Session) (task_id : Z) (loaded : Task.t)
    (o : Task.obj) (now : datetime) :
  TaskService.get_by_id_in (tasks db) task_id = Some loaded ->
  (TaskService.commit_update loaded o now;;
   t ← TaskService.refresh task_id; mret (Some t)) db =
  if decide (o = Task.load loaded) then (Ok (Some loaded), db)
  else if decide (Forall storable (TaskService.update_params loaded o)) then
    match TaskService.updated_row loaded o now with
    | Raise e => (Raise e, db)
    | Ok row =>
        (Ok (Some row),
         mkSession (users db)
           ((fun r => if decide (Task.id r = task_id) then row else r)
              <$> tasks db))
    end
  else (Raise OverflowError, db).
Proof.
  intros Hget.
  pose proof (lookup_key_Some Task.id _ _ _ Hget) as [Hid _].
  unfold TaskService.commit_update.
  destruct (decide (o = Task.load loaded)) as [_|_].
  - run. by rewrite Hget.
  - unfold mbind at 1, M_bind at 1, bind at 1. rewrite bind_params_run.
    destruct (decide (Forall storable _)) as [Hp|Hp].
    + rewrite decide_True
        by (eapply Forall_impl; [exact Hp | intros z; apply storable_int64]).
      destruct (TaskService.updated_row loaded o now) as [row|e] eqn:Hrow;
        [| done].
      apply task_updated_row_id in Hrow. run. cbn [tasks]. rewrite Hid.
      unfold TaskService.get_by_id_in.
      rewrite (lookup_key_update Task.id); [done | congruence |].
      by exists loaded.
    + rewrite decide_False; [done |]. intros Hall. apply Hp.
      eapply Forall_impl; [exact Hall | intros z; apply storable_int64].
Qed.

Lemma task_create_run (db : Session) (task_data : TaskCreate.t) (owner_id : Z)
    (now : datetime) :
  let t := Task.mk (Orm.next_id (Task.id <$> tasks db))
             (TaskCreate.title task_data) (TaskCreate.description task_data)
             PENDING (Some (TaskCreate.priority task_data)) owner_id now None
             (TaskCreate.due_date task_data) in
  TaskService.create task_data owner_id now db =
  if decide (storable owner_id /\ storable (TaskCreate.priority task_data))
  then (Ok t, mkSession (users db) (tasks db ++ [t]))
  else (Raise OverflowError, db).
Proof.
  intros t.
  assert (Hfresh : TaskService.get_by_id_in (tasks db) (Task.id t) = None)
    by apply (next_id_fresh Task.id).
  assert (Hnew : TaskService.get_by_id_in (tasks db ++ [t]) (Task.id t) = Some t)
    by by apply (lookup_key_insert Task.id).
  unfold TaskService.create. rewrite run_gets, bind_params_run.
  repeat case_decide; try done; try (exfalso; in_range).
  run. fold t. by rewrite Hnew.
Qed.

Lemma task_delete_run (db : Session) (task_id : Z) :
  TaskService.delete task_id db =
  if decide (storable task_id) then
    match TaskService.get_by_id_in (tasks db) task_id with
    | None => (Ok false, db)
    | Some _ =>
        (Ok true,
         mkSession (users db) (filter (fun r => Task.id r <> task_id) (tasks db)))
    end
  else (Raise OverflowError, db).
Proof.
  unfold TaskService.delete. rewrite task_get_by_id_bind.
  case_decide; [| done].
  destruct (TaskService.get_by_id_in (tasks db) task_id) as [old|] eqn:Hget;
    [| done].
  apply (lookup_key_Some Task.id) in Hget as [Hid _]. run. by rewrite Hid.
Qed.




(** ** Status statistics *)

Lemma filter_none {A} (P : A -> Prop) `{forall x, Decision (P x)} (l : list A) :
  (forall x, x ∈ l -> ~ P x) -> filter P l = [].
Proof.
  induction l as [|x l IH]; intros Hl; [done |].
  rewrite filter_cons_False by (apply Hl; by left).
  apply IH. intros y Hy. apply Hl. by right.
Qed.

#[global] Instance value_inj : Inj (=) (=) value.
Proof. intros [] []; cbv; congruence. Qed.

Lemma stats_fold_other (results : list (TaskStatus * Z)) (d : gmap string Z)
    (s : TaskStatus) :
  s ∉ results.*1 ->
  foldl (fun d '(status, count) => <[value status := count]> d) d results
    !! value s = d !! value s.
Proof.
  revert d. induction results as [|[s' c] results IH]; intros d Hs; [done |].
  rewrite fmap_cons, not_elem_of_cons in Hs. destruct Hs as [Hne Hs].
  cbn [foldl]. rewrite IH by done.
  apply lookup_insert_ne. intros Heq. by apply (inj value) in Heq.
Qed.

Lemma stats_fold_hit (results : list (TaskStatus * Z)) (d : gmap string Z)
    (s : TaskStatus) (c : Z) :
  NoDup results.*1 -> (s, c) ∈ results ->
  foldl (fun d '(status, count) => <[value status := count]> d) d results
    !! value s = Some c.
Proof.
  revert d. induction results as [|[s' c'] results IH]; intros d Hnd Hin.
  - by apply elem_of_nil in Hin.
  - rewrite fmap_cons, NoDup_cons in Hnd. destruct Hnd as [Hs' Hnd].
    cbn [foldl]. apply elem_of_cons in Hin as [[= -> ->]|Hin].
    + rewrite stats_fold_other by done. apply lookup_insert_eq.
    + by apply IH.
Qed.

Lemma stats_initial (s : TaskStatus) :
  foldl (fun (d : gmap string Z) status => <[value status := 0]> d) ∅
    TaskStatus_members !! value s = Some 0.
Proof. by destruct s. Qed.

Lemma group_by_status_count_fst (rows : list Task.t) :
  (TaskService.group_by_status_count rows).*1 = remove_dups (Task.status <$> rows).
Proof.
  unfold TaskService.group_by_status_count.
  rewrite <- list_fmap_compose. apply list_fmap_id.
Qed.

Lemma count_by_status (rows : list Task.t) :
  Z.of_nat (length rows) =
  Orm.count (filter (fun t => Task.status t = PENDING) rows) +
  Orm.count (filter (fun t => Task.status t = IN_PROGRESS) rows) +
  Orm.count (filter (fun t => Task.status t = COMPLETED) rows) +
  Orm.count (filter (fun t => Task.status t = CANCELLED) rows).
Proof.
  unfold Orm.count. induction rows as [|t rows IH]; [done |].
  rewrite !filter_cons.
  destruct (Task.status t); repeat case_decide; try done;
    cbn [length]; lia.
Qed.

Lemma get_stats_lookup (rows : list Task.t) (owner : Z) (s : TaskStatus) :
  TaskService.get_stats_in rows owner !! value s =
  Some (Orm.count (filter (matches owner (Some s)) rows)).
Proof.
  unfold TaskService.get_stats_in. cbv zeta.
  rewrite <- (owner_status_filter rows owner (Some s)).
  set (owned := filter (fun t => Task.owner_id t = owner) rows).
  destruct (decide (s ∈ Task.status <$> owned)) as [Hin|Hout].
  - apply stats_fold_hit.
    + rewrite group_by_status_count_fst. apply NoDup_remove_dups.
    + unfold TaskService.group_by_status_count.
      apply list_elem_of_fmap. exists s. split; [done |].
      by apply elem_of_remove_dups.
  - rewrite stats_fold_other.
    + rewrite stats_initial. f_equal.
      replace (filter (fun t => Task.status t = s) owned) with (@nil Task.t);
        [done |].
      symmetry. apply filter_none.
      intros t Ht Hs. apply Hout. subst s. by apply list_elem_of_fmap_2.
    + by rewrite group_by_status_count_fst, elem_of_remove_dups.
Qed.

Lemma stats_fold_dom (results : list (TaskStatus * Z)) (d : gmap string Z) :
  dom (foldl (fun d '(status, count) => <[value status := count]> d) d results)
  = dom d ∪ list_to_set (value <$> results.*1).
Proof.
  revert d. induction results as [|[s c] results IH]; intros d.
  - cbn. by rewrite (right_id_L ∅ (∪)).
  - cbn [foldl]. rewrite IH, dom_insert_L, !fmap_cons, list_to_set_cons.
    cbn [fst].
    by rewrite (comm_L (∪) {[value s]} (dom d)), (assoc_L (∪)).
Qed.

Lemma value_in_keys (s : TaskStatus) :
  value s ∈ ({[ "pending"; "in_progress"; "completed"; "cancelled" ]} : gset string).
Proof. destruct s; cbn [value]; set_unfold; tauto. Qed.

Lemma get_stats_dom (rows : list Task.t) (owner : Z) :
  dom (TaskService.get_stats_in rows owner)
  = {[ "pending"; "in_progress"; "completed"; "cancelled" ]}.
Proof.
  unfold TaskService.get_stats_in. cbv zeta. rewrite stats_fold_dom.
  cbn [foldl TaskStatus_members value].
  rewrite !dom_insert_L, dom_empty_L.
  apply set_eq. intros k. rewrite elem_of_union, elem_of_list_to_set.
  split; [| intros Hk; left; set_unfold; tauto].
  intros [Hk|Hk]; [set_unfold; tauto |].
  apply list_elem_of_fmap in Hk as (s & -> & _). apply value_in_keys.
Qed.

Lemma get_stats_run (db : Session) (owner : Z) :
  TaskService.get_stats owner db =
  if decide (storable owner)
  then (Ok (TaskService.get_stats_in (tasks db) owner), db)
  else (Raise OverflowError, db).
Proof.
  unfold TaskService.get_stats. rewrite bind_params_run.
  repeat case_decide; try done; exfalso; in_range.
Qed.

(** C3 (as amended): for an owner id that the storage can hold (signed
    64-bit), [get_stats] returns a mapping (the session is unchanged) whose
    key set is exactly the four status values; each status value maps to the
    number of stored tasks of that owner in that status, zero when there is
    none; the four counts add up to the number of tasks of that owner.  For
    an owner id outside that range it raises [OverflowError]. *)
Theorem get_stats_spec (db : Session) (owner : Z) :
  if decide (storable owner) then
    exists stats : gmap string Z,
      returns (TaskService.get_stats owner) db stats db /\
      dom stats = {[ "pending"; "in_progress"; "completed"; "cancelled" ]} /\
      (forall s : TaskStatus,
         stats !! value s =
         Some (Z.of_nat (length (filter (matches owner (Some s)) (tasks db))))) /\
      (forall s : TaskStatus,
         (forall t, t ∈ tasks db -> ~ matches owner (Some s) t) ->
         stats !! value s = Some 0) /\
      exists p i c x : Z,
        stats !! "pending" = Some p /\ stats !! "in_progress" = Some i /\
        stats !! "completed" = Some c /\ stats !! "cancelled" = Some x /\
        p + i + c + x =
        Z.of_nat (length (filter (matches owner None) (tasks db)))
  else raises_exn (TaskService.get_stats owner) db OverflowError.
Proof.
  unfold returns, raises_exn. rewrite get_stats_run.
  case_decide; [| done].
  exists (TaskService.get_stats_in (tasks db) owner).
  split_and!.
  - done.
  - apply get_stats_dom.
  - intros s. apply get_stats_lookup.
  - intros s Hnone. rewrite get_stats_lookup.
    by rewrite (filter_none _ _ Hnone).
  - eexists _, _, _, _. split_and!.
    + apply (get_stats_lookup _ _ PENDING).
    + apply (get_stats_lookup _ _ IN_PROGRESS).
    + apply (get_stats_lookup _ _ COMPLETED).
    + apply (get_stats_lookup _ _ CANCELLED).
    + rewrite <- !owner_status_filter.
      symmetry. apply count_by_status.
Qed.

(** ** User service: authentication and registration *)




(** ** Partial updates *)

Lemma task_setattr_merge (old : Task.t) (d : TaskUpdate.t) :
  foldl TaskService.setattr (Task.load old) (TaskUpdate.dict_exclude_unset d) =
  Task.mkobj
    (merged (TaskUpdate.title d) (Some (Task.title old)))
    (merged (TaskUpdate.description d) (Task.description old))
    (merged (TaskUpdate.status d) (Some (Task.status old)))
    (merged (TaskUpdate.priority d) (Task.priority old))
    (merged (TaskUpdate.due_date d) (Task.due_date old)).
Proof. by destruct d as [[|?] [|?] [|?] [|?] [|?]]. Qed.

Lemma user_setattr_merge (old : User.t) (d : UserUpdate.t) :
  foldl UserService.setattr (User.load old) (UserUpdate.dict_exclude_unset d) =
  User.mkobj
    (merged (UserUpdate.email d) (Some (User.email old)))
    (merged (UserUpdate.username d) (Some (User.username old)))
    (merged (UserUpdate.full_name d) (User.full_name old))
    (merged (UserUpdate.is_active d) (User.is_active old)).
Proof. by destruct d as [[|?] [|?] [|?] [|?]]. Qed.

Lemma user_get_by_id_run (db : Session) (user_id : Z) :
  UserService.get_by_id user_id db =
  if decide (storable user_id)
  then (Ok (UserService.get_by_id_in (users db) user_id), db)
  else (Raise OverflowError, db).
Proof.
  unfold UserService.get_by_id. rewrite bind_params_run.
  repeat case_decide; try done; exfalso; in_range.
Qed.

Lemma user_get_by_id_bind {B} (db : Session) (user_id : Z)
    (k : option User.t -> M B) :
  (UserService.get_by_id user_id ≫= k) db =
  if decide (storable user_id)
  then k (UserService.get_by_id_in (users db) user_id) db
  else (Raise OverflowError, db).
Proof.
  unfold mbind, M_bind, bind. rewrite user_get_by_id_run.
  by case_decide.
Qed.

Lemma user_updated_row_id loaded o now row :
  UserService.updated_row loaded o now = Ok row -> User.id row = User.id loaded.
Proof.
  unfold UserService.updated_row.
  destruct (User.o_email o), (User.o_username o); intros [= <-]; done.
Qed.

Lemma user_updated_row_raise loaded o now e :
  UserService.updated_row loaded o now = Raise e -> is_IntegrityError e.
Proof.
  unfold UserService.updated_row, is_IntegrityError.
  destruct (User.o_email o), (User.o_username o); intros [= <-]; eauto.
Qed.

Lemma user_commit_refresh (db : Session) (user_id : Z) (loaded : User.t)
    (o : User.obj) (now : datetime) :
  UserService.get_by_id_in (users db) user_id = Some loaded ->
  (UserService.commit_update loaded o now;;
   u ← UserService.refresh user_id; mret (Some u)) db =
  if decide (o = User.load loaded) then (Ok (Some loaded), db)
  else
    match UserService.updated_row loaded o now with
    | Raise e => (Raise e, db)
    | Ok row =>
        if decide (UserService.taken User.email loaded row (users db)) then
          (Raise (IntegrityError "UNIQUE constraint failed: users.email"), db)
        else if decide (UserService.taken User.username loaded row (users db)) then
          (Raise (IntegrityError "UNIQUE constraint failed: users.username"), db)
        else
          (Ok (Some row),
           mkSession
             ((fun r => if decide (User.id r = user_id) then row else r)
                <$> users db)
             (tasks db))
    end.
Proof.
  intros Hget.
  pose proof (lookup_key_Some User.id _ _ _ Hget) as [Hid _].
  unfold UserService.commit_update, UserService.refresh.
  run.
  destruct (decide (o = User.load loaded)) as [_|_].
  - by rewrite Hget.
  - destruct (UserService.updated_row loaded o now) as [row|e] eqn:Hrow; [| done].
    apply user_updated_row_id in Hrow.
    destruct (decide (UserService.taken User.email loaded row (users db)));
      [done |].
    destruct (decide (UserService.taken User.username loaded row (users db)));
      [done |].
    cbn [users]. rewrite Hid. unfold UserService.get_by_id_in.
    rewrite (lookup_key_update User.id); [done | congruence |].
    by exists loaded.
Qed.

Lemma user_update_overflow (db : Session) (user_id : Z) (d : UserUpdate.t)
    (now : datetime) :
  ~ storable user_id ->
  UserService.update user_id d now db = (Raise OverflowError, db).
Proof.
  intros Hi. unfold UserService.update.
  by rewrite user_get_by_id_bind, decide_False.
Qed.

Lemma task_update_overflow (db : Session) (task_id : Z) (d : TaskUpdate.t)
    (now : datetime) :
  ~ storable task_id ->
  TaskService.update task_id d now db = (Raise OverflowError, db).
Proof.
  intros Hi. unfold TaskService.update.
  by rewrite task_get_by_id_bind, decide_False.
Qed.

Lemma user_update_run (db : Session) (user_id : Z) (d : UserUpdate.t)
    (now : datetime) (old : User.t) :
  storable user_id ->
  UserService.get_by_id_in (users db) user_id = Some old ->
  UserService.update user_id d now db =
  let o := User.mkobj
             (merged (UserUpdate.email d) (Some (User.email old)))
             (merged (UserUpdate.username d) (Some (User.username old)))
             (merged (UserUpdate.full_name d) (User.full_name old))
             (merged (UserUpdate.is_active d) (User.is_active old)) in
  if decide (o = User.load old) then (Ok (Some old), db)
  else
    match UserService.updated_row old o now with
    | Raise e => (Raise e, db)
    | Ok row =>
        if decide (UserService.taken User.email old row (users db)) then
          (Raise (IntegrityError "UNIQUE constraint failed: users.email"), db)
        else if decide (UserService.taken User.username old row (users db)) then
          (Raise (IntegrityError "UNIQUE constraint failed: users.username"), db)
        else
          (Ok (Some row),
           mkSession
             ((fun r => if decide (User.id r = user_id) then row else r)
                <$> users db)
             (tasks db))
    end.
Proof.
  intros Hi Hget. unfold UserService.update.
  rewrite user_get_by_id_bind, decide_True, Hget by done. cbv zeta.
  by rewrite (user_commit_refresh _ _ _ _ _ Hget), user_setattr_merge.
Qed.

Lemma task_update_run (db : Session) (task_id : Z) (d : TaskUpdate.t)
    (now : datetime) (old : Task.t) :
  storable task_id ->
  TaskService.get_by_id_in (tasks db) task_id = Some old ->
  TaskService.update task_id d now db =
  let o := Task.mkobj
             (merged (TaskUpdate.title d) (Some (Task.title old)))
             (merged (TaskUpdate.description d) (Task.description old))
             (merged (TaskUpdate.status d) (Some (Task.status old)))
             (merged (TaskUpdate.priority d) (Task.priority old))
             (merged (TaskUpdate.due_date d) (Task.due_date old)) in
  if decide (o = Task.load old) then (Ok (Some old), db)
  else if decide (Forall storable (TaskService.update_params old o)) then
    match TaskService.updated_row old o now with
    | Raise e => (Raise e, db)
    | Ok row =>
        (Ok (Some row),
         mkSession (users db)
           ((fun r => if decide (Task.id r = task_id) then row else r)
              <$> tasks db))
    end
  else (Raise OverflowError, db).
Proof.
  intros Hi Hget. unfold TaskService.update.
  rewrite task_get_by_id_bind, decide_True, Hget by done. cbv zeta.
  by rewrite (task_commit_refresh _ _ _ _ _ Hget), task_setattr_merge.
Qed.

Lemma user_update_unknown (db : Session) (user_id : Z) (d : UserUpdate.t)
    (now : datetime) :
  storable user_id ->
  UserService.get_by_id_in (users db) user_id = None ->
  UserService.update user_id d now db = (Ok None, db).
Proof.
  intros Hi Hget. unfold UserService.update.
  by rewrite user_get_by_id_bind, decide_True, Hget.
Qed.

Lemma task_update_unknown (db : Session) (task_id : Z) (d : TaskUpdate.t)
    (now : datetime) :
  storable task_id ->
  TaskService.get_by_id_in (tasks db) task_id = None ->
  TaskService.update task_id d now db = (Ok None, db).
Proof.
  intros Hi Hget. unfold TaskService.update.
  by rewrite task_get_by_id_bind, decide_True, Hget.
Qed.

(** Every outcome of a user update of a stored user. *)
Lemma user_update_known (db : Session) (user_id : Z) (d : UserUpdate.t)
    (now : datetime) (old : User.t) :
  storable user_id ->
  UserService.get_by_id_in (users db) user_id = Some old ->
  (exists e, UserService.update user_id d now db = (Raise (IntegrityError e), db)) \/
  (exists (u : User.t) (db' : Session),
     UserService.update user_id d now db = (Ok (Some u), db') /\
     user_merge_of old d u /\
     UserService.get_by_id_in (users db') user_id = Some u /\
     (forall j, j <> user_id ->
        UserService.get_by_id_in (users db') j =
        UserService.get_by_id_in (users db) j) /\
     tasks db' = tasks db /\
     (u = old /\ db' = db \/ User.updated_at u = Some now)).
Proof.
  intros Hi Hget. rewrite (user_update_run _ _ _ _ _ Hi Hget). cbv zeta.
  pose proof (lookup_key_Some User.id _ _ _ Hget) as [Hid _].
  destruct (decide (_ = User.load old)) as [Heq|Hne].
  - right. exists old, db. split_and!; try done; [| by left].
    unfold User.load in Heq. injection Heq as He Hn Hf Ha.
    by unfold user_merge_of.
  - unfold UserService.updated_row. cbn [User.o_email User.o_username
      User.o_full_name User.o_is_active].
    destruct (merged (UserUpdate.email d) (Some (User.email old)))
      as [e|] eqn:He; [| left; eauto].
    destruct (merged (UserUpdate.username d) (Some (User.username old)))
      as [n|] eqn:Hn; [| left; eauto].
    destruct (decide (UserService.taken User.email old _ (users db)));
      [left; eauto |].
    destruct (decide (UserService.taken User.username old _ (users db)));
      [left; eauto |].
    right. eexists _, _. split; [done |]. cbn [users tasks].
    split_and!; try done; [| | by right].
    + apply (lookup_key_update User.id); [done | by eexists].
    + intros j Hj. by apply (lookup_key_update_ne User.id).
Qed.




(** Every outcome of a task update of a stored task. *)
Lemma task_update_known (db : Session) (task_id : Z) (d : TaskUpdate.t)
    (now : datetime) (old : Task.t) :
  storable task_id ->
  TaskService.get_by_id_in (tasks db) task_id = Some old ->
  (exists e, TaskService.update task_id d now db = (Raise e, db) /\
     (e = OverflowError \/ is_IntegrityError e)) \/
  (exists (t : Task.t) (db' : Session),
     TaskService.update task_id d now db = (Ok (Some t), db') /\
     task_merge_of old d t /\
     TaskService.get_by_id_in (tasks db') task_id = Some t /\
     (forall j, j <> task_id ->
        TaskService.get_by_id_in (tasks db') j =
        TaskService.get_by_id_in (tasks db) j) /\
     users db' = users db /\
     (t = old /\ db' = db \/ Task.updated_at t = Some now)).
Proof.
  intros Hi Hget. rewrite (task_update_run _ _ _ _ _ Hi Hget). cbv zeta.
  pose proof (lookup_key_Some Task.id _ _ _ Hget) as [Hid _].
  destruct (decide (_ = Task.load old)) as [Heq|Hne].
  - right. exists old, db. split_and!; try done; [| by left].
    unfold Task.load in Heq. injection Heq as Ht Hd Hs Hp Hu.
    by unfold task_merge_of.
  - destruct (decide (Forall storable _)) as [_|_]; [| left; eauto].
    unfold TaskService.updated_row. cbn [Task.o_title Task.o_description
      Task.o_status Task.o_priority Task.o_due_date].
    destruct (merged (TaskUpdate.title d) (Some (Task.title old)))
      as [ti|] eqn:Hti; [| left; unfold is_IntegrityError; eauto].
    destruct (merged (TaskUpdate.status d) (Some (Task.status old)))
      as [st|] eqn:Hst; [| left; unfold is_IntegrityError; eauto].
    right. eexists _, _. split; [done |]. cbn [users tasks].
    split_and!; try done; [| | by right].
    + apply (lookup_key_update Task.id); [done | by eexists].
    + intros j Hj. by apply (lookup_key_update_ne Task.id).
Qed.

Lemma task_update_accepted_ok (db : Session) (task_id : Z) (d : TaskUpdate.t)
    (now : datetime) (old : Task.t) :
  storable task_id ->
  TaskService.get_by_id_in (tasks db) task_id = Some old ->
  task_update_accepted old d ->
  exists (t : Task.t) (db' : Session),
    TaskService.update task_id d now db = (Ok (Some t), db').
Proof.
  intros Hi Hget (Hti & Hst & Hpr).
  rewrite (task_update_run _ _ _ _ _ Hi Hget). cbv zeta.
  destruct (decide (_ = Task.load old)) as [_|_]; [eauto |].
  rewrite decide_True.
  2:{ unfold TaskService.update_params. cbn [Task.o_priority].
      case_decide as Hsame; [constructor |].
      destruct (TaskUpdate.priority d) as [|[p|]] eqn:Hd; cbn [merged] in *.
      - congruence.
      - apply Forall_singleton, Hpr; [done | congruence].
      - constructor. }
  unfold TaskService.updated_row. cbn [Task.o_title Task.o_status].
  destruct (TaskUpdate.title d) as [|[?|]]; [| | done];
    (destruct (TaskUpdate.status d) as [|[?|]]; [| | done]);
    cbn [merged]; eauto.
Qed.




(** C10: [UserService.update] never changes a stored [hashed_password]:
    whatever the partial update and whatever the outcome, every stored user
    has the [hashed_password] it had, and a returned user carries the one
    that was stored under the id.  ([UserUpdate] has no password field:
    no item of the update dictionary reaches that column.) *)
Theorem user_update_keeps_hashed_password (db : Session) (user_id : Z)
    (d : UserUpdate.t) (now : datetime) :
  (forall j,
     User.hashed_password <$>
       UserService.get_by_id_in (users (UserService.update user_id d now db).2) j
     = User.hashed_password <$> UserService.get_by_id_in (users db) j) /\
  (forall u,
     (UserService.update user_id d now db).1 = Ok (Some u) ->
     User.hashed_password <$> UserService.get_by_id_in (users db) user_id
     = Some (User.hashed_password u)).
Proof.
  destruct (decide (storable user_id)) as [Hi|Hi].
  2:{ rewrite user_update_overflow by done. by split. }
  destruct (UserService.get_by_id_in (users db) user_id) as [old|] eqn:Hget.
  - destruct (user_update_known db user_id d now old Hi Hget)
      as [[e ->]|(u & db' & -> & Hm & Hu & Hother & _)]; [by split |].
    destruct Hm as (_ & _ & _ & _ & _ & Hpw & _). cbn [fst snd]. split.
    + intros j. destruct (decide (j = user_id)) as [->|Hj].
      * rewrite Hu, Hget. cbn. by f_equal.
      * by rewrite Hother.
    + intros u' [= <-]. cbn. by f_equal.
  - rewrite user_update_unknown by done. by split.
Qed.

(** ** Deletion *)

Lemma user_delete_run (db : Session) (user_id : Z) :
  UserService.delete user_id db =
  if decide (storable user_id) then
    match UserService.get_by_id_in (users db) user_id with
    | None => (Ok false, db)
    | Some _ =>
        match filter (fun t => Task.owner_id t = user_id) (tasks db) with
        | [] =>
            (Ok true,
             mkSession (filter (fun r => User.id r <> user_id) (users db))
               (tasks db))
        | _ :: _ =>
            (Raise (IntegrityError "NOT NULL constraint failed: tasks.owner_id"),
             db)
        end
    end
  else (Raise OverflowError, db).
Proof.
  unfold UserService.delete. rewrite user_get_by_id_bind.
  case_decide; [| done].
  destruct (UserService.get_by_id_in (users db) user_id) as [old|] eqn:Hget;
    [| done].
  apply (lookup_key_Some User.id) in Hget as [Hid _].
  unfold UserService.commit_delete. run. rewrite Hid.
  by destruct (filter _ (tasks db)).
Qed.


(** C8 (failing input): user 1 is stored and owns tasks; [UserService.delete]
    neither returns true nor removes the record: the commit raises
    [IntegrityError] and the store is as before. *)
Theorem user_delete_owner_raises :
  UserService.get_by_id_in (users sample_db) 1 = Some sample_alice /\
  UserService.delete 1 sample_db =
    (Raise (IntegrityError "NOT NULL constraint failed: tasks.owner_id"),
     sample_db) /\
  (forall (b : bool) (db' : Session),
     ~ returns (UserService.delete 1) sample_db b db').
Proof.
  split_and!; [done | done |].
  intros b db'. unfold returns.
  change (UserService.delete 1 sample_db) with
    (@Raise bool (IntegrityError "NOT NULL constraint failed: tasks.owner_id"),
     sample_db).
  congruence.
Qed.

(** ** The properties on the sample store *)



Lemma sample_db_consistent : consistent sample_db.
Proof.
  unfold consistent. split_and!; apply (bool_decide_unpack _); by vm_compute.
Qed.

(** The first integer above the signed 64-bit range cannot be stored. *)
Lemma not_storable_2_63 : ~ storable 9223372036854775808.
Proof. unfold storable. lia. Qed.

Lemma get_by_owner_page_witness :
  0 <= 1 /\ 0 <= 2 /\
  exists page : list Task.t,
    returns (TaskService.get_by_owner 1 None 1 2) sample_db (page, 3) sample_db /\
    (length page <= 2)%nat /\
    StronglySorted newest_first page.
Proof.
  split; [lia |]. split; [lia |].
  destruct (get_by_owner_page sample_db 1 None 1 2)
    as (ordered & page & total & Hret & Htot & _ & _ & _ & _ & Hlen & _ & Hsorted);
    [lia | lia |].
  exists page. subst total. split_and!; [exact Hret | exact Hlen | exact Hsorted].
Defined.

(** C1 (as stated) fails: skip = 2^63 and limit = 20 are not negative, yet
    [get_by_owner] returns no pair for them: the page query cannot bind the
    OFFSET, and the call raises [OverflowError]. *)
Lemma get_by_owner_page_counterexample :
  0 <= 9223372036854775808 /\ 0 <= 20 /\
  raises_exn (TaskService.get_by_owner 1 None 9223372036854775808 20) sample_db
    OverflowError /\
  (forall (r : list Task.t * Z) (db' : Session),
     ~ returns (TaskService.get_by_owner 1 None 9223372036854775808 20)
         sample_db r db').
Proof.
  assert (Hrun : TaskService.get_by_owner 1 None 9223372036854775808 20 sample_db
                 = (Raise OverflowError, sample_db)).
  { rewrite get_by_owner_run, decide_False; [done |].
    intros (_ & Hs & _). by apply not_storable_2_63. }
  split_and!; [lia | lia | exact Hrun |].
  intros r db'. unfold returns. by rewrite Hrun.
Qed.

Lemma get_by_owner_skip_past_end_witness :
  Z.of_nat (length (filter (matches 1 (Some PENDING)) (tasks sample_db))) <= 1 /\
  returns (TaskService.get_by_owner 1 (Some PENDING) 1 20) sample_db ([], 1)
    sample_db.
Proof.
  split; [vm_compute; discriminate |].
  apply (get_by_owner_skip_past_end sample_db 1 (Some PENDING) 1 20).
  vm_compute. discriminate.
Defined.

(** C9 (as stated) fails: skip = 2^63 is at least the size of the filtered
    set (3 tasks), yet [get_by_owner] does not return the empty page with
    total 3: it raises [OverflowError]. *)
Lemma get_by_owner_skip_past_end_counterexample :
  Z.of_nat (length (filter (matches 1 None) (tasks sample_db)))
    <= 9223372036854775808 /\
  raises_exn (TaskService.get_by_owner 1 None 9223372036854775808 20) sample_db
    OverflowError /\
  (forall db' : Session,
     ~ returns (TaskService.get_by_owner 1 None 9223372036854775808 20)
         sample_db ([], 3) db').
Proof.
  assert (Hrun : TaskService.get_by_owner 1 None 9223372036854775808 20 sample_db
                 = (Raise OverflowError, sample_db)).
  { rewrite get_by_owner_run, decide_False; [done |].
    intros (_ & Hs & _). by apply not_storable_2_63. }
  split_and!; [vm_compute; discriminate | exact Hrun |].
  intros db'. unfold returns. by rewrite Hrun.
Qed.


(** C3 (as stated) fails: for the owner id 2^63 [get_stats] returns no
    mapping: the query cannot bind the id and raises [OverflowError]. *)
Lemma get_stats_counterexample :
  raises_exn (TaskService.get_stats 9223372036854775808) sample_db
    OverflowError /\
  (forall (stats : gmap string Z) (db' : Session),
     ~ returns (TaskService.get_stats 9223372036854775808) sample_db stats db').
Proof.
  assert (Hrun : TaskService.get_stats 9223372036854775808 sample_db
                 = (Raise OverflowError, sample_db)).
  { by rewrite get_stats_run, decide_False by apply not_storable_2_63. }
  split; [exact Hrun |].
  intros stats db'. unfold returns. by rewrite Hrun.
Qed.



(** ** The scenarios of the specification *)

Example scenario_complete_runs :
  exists (t c : Task.t) (stats : gmap string Z) (db' : Session),
    scenario_complete empty_db = (Ok (t, Some c, stats), db') /\
    Task.status t = PENDING /\ Task.owner_id t = 1 /\
    Task.status c = COMPLETED /\
    stats !! "pending" = Some 0 /\ stats !! "in_progress" = Some 0 /\
    stats !! "completed" = Some 1 /\ stats !! "cancelled" = Some 0.
Proof.
  set (c := Task.mk 1 "T1" None COMPLETED (Some 3) 1 2 (Some 3) None).
  exists (Task.mk 1 "T1" None PENDING (Some 3) 1 2 None None), c,
    (TaskService.get_stats_in [c] 1).
  eexists. split; [reflexivity |].
  split_and!;
    [done | done | done
    | exact (get_stats_lookup [c] 1 PENDING)
    | exact (get_stats_lookup [c] 1 IN_PROGRESS)
    | exact (get_stats_lookup [c] 1 COMPLETED)
    | exact (get_stats_lookup [c] 1 CANCELLED)].
Qed.

Example scenario_page_runs :
  exists (page : list Task.t) (db' : Session),
    scenario_page empty_db = (Ok (page, 5), db') /\
    Task.title <$> page = ["T5"; "T4"; "T3"].
Proof. eexists _, _. split; [vm_compute; reflexivity |]. done. Qed.

(** Tasks created at the same time are listed in the order they were
    stored. *)
Example sample_ties_in_storage_order :
  Task.id <$>
    Orm.order_by_desc Task.created_at
      [ Task.mk 1 "a" None PENDING None 1 7 None None;
        Task.mk 2 "b" None PENDING None 1 9 None None;
        Task.mk 3 "c" None PENDING None 1 7 None None;
        Task.mk 4 "d" None PENDING None 1 7 None None;
        Task.mk 5 "e" None PENDING None 1 9 None None ]
  = [2; 5; 1; 3; 4].
Proof. reflexivity. Qed.

Example sample_authenticate :
  (@UserService.authenticate sample_pwd_context "alice" "wonderland1" sample_db).1
    = Ok (Some sample_alice) /\
  (@UserService.authenticate sample_pwd_context "alice" "wonderland2" sample_db).1
    = Ok None /\
  (@UserService.authenticate sample_pwd_context "carol" "wonderland1" sample_db).1
    = Ok None.
Proof. done. Qed.


(** * Further properties of the services *)

(** ** Unscoped pagination *)

Lemma window_concat {A} (rows : list A) (skip a b : Z) :
  0 <= skip -> 0 <= a -> 0 <= b ->
  Orm.limit a (Orm.offset skip rows) ++ Orm.limit b (Orm.offset (skip + a) rows)
  = Orm.limit (a + b) (Orm.offset skip rows).
Proof.
  intros Hs Ha Hb. rewrite !limit_nonneg by lia. unfold Orm.offset.
  rewrite Z2Nat.inj_add by lia. rewrite <- (drop_drop rows (Z.to_nat a)).
  rewrite Z2Nat.inj_add by lia. apply take_take_drop.
Qed.

Lemma window_lookup {A} (rows : list A) (skip limit : Z) (i : nat) :
  0 <= limit -> (i < Z.to_nat limit)%nat ->
  Orm.limit limit (Orm.offset skip rows) !! i = rows !! (Z.to_nat skip + i)%nat.
Proof.
  intros Hl Hi. rewrite limit_nonneg by done. unfold Orm.offset.
  by rewrite lookup_take_lt, lookup_drop.
Qed.

Lemma window_length {A} (rows : list A) (skip limit : Z) :
  0 <= limit ->
  length (Orm.limit limit (Orm.offset skip rows))
  = (Z.to_nat limit `min` (length rows - Z.to_nat skip))%nat.
Proof.
  intros Hl. rewrite limit_nonneg by done. unfold Orm.offset.
  by rewrite length_take, length_drop.
Qed.

Lemma get_all_run (db : Session) (skip limit : Z) :
  TaskService.get_all skip limit db =
  (if decide (storable skip /\ storable limit)
   then (Ok (TaskService.get_all_in (tasks db) skip limit), db)
   else (Raise OverflowError, db)) /\
  UserService.get_all skip limit db =
  (if decide (storable skip /\ storable limit)
   then (Ok (UserService.get_all_in (users db) skip limit), db)
   else (Raise OverflowError, db)).
Proof.
  unfold TaskService.get_all, UserService.get_all. rewrite !bind_params_run.
  split; repeat case_decide; try done; exfalso; in_range.
Qed.

(** X1: [TaskService.get_all] and [UserService.get_all] page through the
    table in storage order.  For skip >= 0 and limit >= 0 that the storage
    can hold (signed 64-bit) the call returns the page and leaves the
    session alone, and when skip or limit is outside that range it raises
    [OverflowError]; the page holds the rows at positions skip, skip+1, ...
    of the table, has min(limit, rows left after skip) elements, and a page
    of [a] rows followed by the next page of [b] rows is the page of [a + b]
    rows, so consecutive pages neither repeat nor lose a row. *)
Theorem get_all_pages (db : Session) (skip a b : Z) :
  0 <= skip -> 0 <= a -> 0 <= b ->
  (if decide (storable skip /\ storable a) then
     returns (TaskService.get_all skip a) db
       (TaskService.get_all_in (tasks db) skip a) db /\
     returns (UserService.get_all skip a) db
       (UserService.get_all_in (users db) skip a) db
   else
     raises_exn (TaskService.get_all skip a) db OverflowError /\
     raises_exn (UserService.get_all skip a) db OverflowError) /\
  (TaskService.get_all_in (tasks db) skip a
     ++ TaskService.get_all_in (tasks db) (skip + a) b
   = TaskService.get_all_in (tasks db) skip (a + b) /\
   (forall i : nat, (i < Z.to_nat a)%nat ->
      TaskService.get_all_in (tasks db) skip a !! i
      = tasks db !! (Z.to_nat skip + i)%nat) /\
   length (TaskService.get_all_in (tasks db) skip a)
   = (Z.to_nat a `min` (length (tasks db) - Z.to_nat skip))%nat) /\
  (UserService.get_all_in (users db) skip a
     ++ UserService.get_all_in (users db) (skip + a) b
   = UserService.get_all_in (users db) skip (a + b) /\
   (forall i : nat, (i < Z.to_nat a)%nat ->
      UserService.get_all_in (users db) skip a !! i
      = users db !! (Z.to_nat skip + i)%nat) /\
   length (UserService.get_all_in (users db) skip a)
   = (Z.to_nat a `min` (length (users db) - Z.to_nat skip))%nat).
Proof.
  intros Hs Ha Hb. split.
  { unfold returns, raises_exn.
    destruct (get_all_run db skip a) as [-> ->]. by case_decide. }
  unfold TaskService.get_all_in, UserService.get_all_in.
  split_and!; auto using window_concat, window_lookup, window_length.
Qed.

Lemma get_all_pages_witness :
  0 <= 1 /\ 0 <= 1 /\ 0 <= 1 /\
  returns (TaskService.get_all 1 1) sample_db
    (TaskService.get_all_in (tasks sample_db) 1 1) sample_db /\
  TaskService.get_all_in (tasks sample_db) 1 1
    ++ TaskService.get_all_in (tasks sample_db) (1 + 1) 1
  = TaskService.get_all_in (tasks sample_db) 1 (1 + 1).
Proof.
  split_and!; [lia | lia | lia | |].
  - apply (proj1 (get_all_pages sample_db 1 1 1 ltac:(lia) ltac:(lia) ltac:(lia))).
  - apply (get_all_pages sample_db 1 1 1); lia.
Defined.

(** X2: the pages of [get_by_owner] tile one newest-first ordering of the
    filtered set: for skip >= 0 a page of [a] tasks followed by the next
    page of [b] tasks is the page of [a + b] tasks, the total is the same on
    every page, and the page that starts at 0 and asks for the total is a
    rearrangement of the whole filtered set. *)
Theorem get_by_owner_pages_tile (db : Session) (owner : Z)
    (sf : option TaskStatus) (skip a b : Z) :
  0 <= skip -> 0 <= a -> 0 <= b ->
  let page s l := TaskService.get_by_owner_in (tasks db) owner sf s l in
  (page skip a).1 ++ (page (skip + a) b).1 = (page skip (a + b)).1 /\
  (page skip a).2 = (page (skip + a) b).2 /\
  (page 0 (page skip a).2).1 ≡ₚ filter (matches owner sf) (tasks db).
Proof.
  intros Hs Ha Hb page. unfold page. rewrite !get_by_owner_in_eq.
  cbn [fst snd]. split_and!.
  - by apply window_concat.
  - done.
  - rewrite limit_nonneg by (unfold Orm.count; lia).
    unfold Orm.offset, Orm.count. change (Z.to_nat 0) with 0%nat.
    rewrite drop_0, take_ge; [apply order_by_desc_perm |].
    rewrite order_by_desc_perm. lia.
Qed.

Lemma get_by_owner_pages_tile_witness :
  0 <= 0 /\ 0 <= 1 /\ 0 <= 2 /\
  (TaskService.get_by_owner_in (tasks sample_db) 1 None 0 1).1
    ++ (TaskService.get_by_owner_in (tasks sample_db) 1 None (0 + 1) 2).1
  = (TaskService.get_by_owner_in (tasks sample_db) 1 None 0 (1 + 2)).1.
Proof.
  split_and!; [lia | lia | lia |].
  apply (get_by_owner_pages_tile sample_db 1 None 0 1 2); lia.
Defined.

(** ** Runs of the mutating operations *)

Lemma user_create_run `{CryptContext} (db : Session) (user_data : UserCreate.t)
    (salt : string) (now : datetime) :
  let u := User.mk (Orm.next_id (User.id <$> users db))
             (UserCreate.email user_data) (UserCreate.username user_data)
             (pwd_hash salt (UserCreate.password user_data))
             (UserCreate.full_name user_data) (Some true) (Some false)
             now None in
  UserService.create user_data salt now db =
  if decide (Exists (fun r => User.email r = UserCreate.email user_data)
               (users db)) then
    (Raise (IntegrityError "UNIQUE constraint failed: users.email"), db)
  else if decide (Exists (fun r => User.username r = UserCreate.username user_data)
                    (users db)) then
    (Raise (IntegrityError "UNIQUE constraint failed: users.username"), db)
  else (Ok u, mkSession (users db ++ [u]) (tasks db)).
Proof.
  intros u. unfold UserService.create. rewrite run_gets. fold u.
  unfold UserService.insert, UserService.refresh. run.
  cbn [User.email User.username u].
  destruct (decide (Exists _ (users db))); [done |].
  destruct (decide (Exists _ (users db))); [done |].
  cbn [users].
  assert (Hfresh : UserService.get_by_id_in (users db) (User.id u) = None)
    by apply (next_id_fresh User.id).
  assert (Hnew : UserService.get_by_id_in (users db ++ [u]) (User.id u) = Some u)
    by by apply (lookup_key_insert User.id).
  by rewrite Hnew.
Qed.

Lemma mark_completed_as_update (db : Session) (task_id : Z) (now : datetime) :
  TaskService.mark_completed task_id now db =
  TaskService.update task_id
    (TaskUpdate.mk Unset Unset (Given (Some COMPLETED)) Unset Unset) now db.
Proof. done. Qed.

(** ** Store consistency is preserved *)

Lemma task_update_keys (db : Session) (task_id : Z) (d : TaskUpdate.t)
    (now : datetime) :
  Task.id <$> tasks (TaskService.update task_id d now db).2 = Task.id <$> tasks db /\
  users (TaskService.update task_id d now db).2 = users db.
Proof.
  destruct (decide (storable task_id)) as [Hi|Hi].
  2:{ by rewrite task_update_overflow. }
  destruct (TaskService.get_by_id_in (tasks db) task_id) as [old|] eqn:Hget.
  - rewrite (task_update_run _ _ _ _ _ Hi Hget). cbv zeta.
    pose proof (lookup_key_Some Task.id _ _ _ Hget) as [Hid _].
    destruct (decide (_ = Task.load old)); [done |].
    destruct (decide (Forall storable _)); [| done].
    destruct (TaskService.updated_row old _ now) as [row|] eqn:Hrow; [| done].
    apply task_updated_row_id in Hrow. cbn [snd tasks users]. split; [| done].
    apply (fmap_key_replace Task.id). congruence.
  - by rewrite task_update_unknown.
Qed.

Lemma user_update_consistent (db : Session) (user_id : Z) (d : UserUpdate.t)
    (now : datetime) :
  consistent db -> consistent (UserService.update user_id d now db).2.
Proof.
  intros Hc.
  destruct (decide (storable user_id)) as [Hi|Hi].
  2:{ by rewrite user_update_overflow. }
  destruct (UserService.get_by_id_in (users db) user_id) as [old|] eqn:Hget.
  2:{ by rewrite user_update_unknown. }
  rewrite (user_update_run _ _ _ _ _ Hi Hget). cbv zeta.
  pose proof (lookup_key_Some User.id _ _ _ Hget) as [Hid Hold].
  destruct (decide (_ = User.load old)); [done |].
  destruct (UserService.updated_row old _ now) as [row|] eqn:Hrow; [| done].
  apply user_updated_row_id in Hrow.
  destruct (decide (UserService.taken User.email old row (users db)))
    as [|Hemail]; [done |].
  destruct (decide (UserService.taken User.username old row (users db)))
    as [|Hname]; [done |].
  destruct Hc as (Hids & Hemails & Hnames & Htasks).
  cbn [snd]. unfold consistent. cbn [users tasks]. split_and!; [| | | done].
  - rewrite (fmap_key_replace User.id); [done | congruence].
  - apply (NoDup_col_replace User.id User.email); [done | done |].
    intros r Hr Hrid Heq.
    destruct (decide (User.email row = User.email old)) as [Hsame|Hdiff].
    + apply Hrid. rewrite <- Hid. f_equal.
      apply (NoDup_col_inj User.email (users db)); [done | done | done | congruence].
    + apply Hemail. split; [done |]. apply Exists_exists. exists r.
      split; [done |]. split; [congruence | done].
  - apply (NoDup_col_replace User.id User.username); [done | done |].
    intros r Hr Hrid Heq.
    destruct (decide (User.username row = User.username old)) as [Hsame|Hdiff].
    + apply Hrid. rewrite <- Hid. f_equal.
      apply (NoDup_col_inj User.username (users db));
        [done | done | done | congruence].
    + apply Hname. split; [done |]. apply Exists_exists. exists r.
      split; [done |]. split; [congruence | done].
Qed.

Lemma NoDup_next_id {A} (key : A -> Z) (rows : list A) :
  NoDup (key <$> rows) -> NoDup ((key <$> rows) ++ [Orm.next_id (key <$> rows)]).
Proof.
  intros Hk. apply NoDup_app. split_and!; [done | | apply NoDup_singleton].
  intros i Hi Hin. apply list_elem_of_singleton in Hin.
  apply list_elem_of_fmap in Hi as (r & -> & Hr).
  apply (next_id_above key) in Hr. lia.
Qed.

Lemma NoDup_col_snoc {A B} (col : A -> B) (rows : list A) (row : A) :
  NoDup (col <$> rows) -> ~ Exists (fun r => col r = col row) rows ->
  NoDup (col <$> rows ++ [row]).
Proof.
  intros Hc Hnew. rewrite fmap_app. apply NoDup_app.
  split_and!; [done | | apply NoDup_singleton].
  intros v Hv Hin. apply list_elem_of_singleton in Hin. subst v.
  apply list_elem_of_fmap in Hv as (r & Heq & Hr).
  apply Hnew, Exists_exists. eauto.
Qed.

(** X3: the services keep the store consistent.  If ids are unique in both
    tables and emails and usernames are unique among users, the same holds
    after every mutating service call ([create], [update], [delete],
    [mark_completed] of tasks; [create], [update], [delete] of users),
    whatever its arguments and whether it returns or raises. *)
Theorem consistent_preserved `{CryptContext} (db : Session) :
  consistent db ->
  (forall d owner now, consistent (TaskService.create d owner now db).2) /\
  (forall i d now, consistent (TaskService.update i d now db).2) /\
  (forall i, consistent (TaskService.delete i db).2) /\
  (forall i now, consistent (TaskService.mark_completed i now db).2) /\
  (forall d salt now, consistent (UserService.create d salt now db).2) /\
  (forall i d now, consistent (UserService.update i d now db).2) /\
  (forall i, consistent (UserService.delete i db).2).
Proof.
  intros Hc. pose proof Hc as (Hids & Hemails & Hnames & Htasks).
  assert (Hupd : forall i d now, consistent (TaskService.update i d now db).2).
  { intros i d now. destruct (task_update_keys db i d now) as [Hk Hu].
    unfold consistent. by rewrite Hk, Hu. }
  split_and!.
  - intros d owner now. rewrite task_create_run. cbv zeta.
    case_decide; [| done]. cbn [snd].
    unfold consistent. cbn [users tasks]. split_and!; try done.
    rewrite fmap_app. by apply NoDup_next_id.
  - done.
  - intros i. rewrite task_delete_run. case_decide; [| done].
    destruct (TaskService.get_by_id_in (tasks db) i); [| done].
    unfold consistent. cbn [snd users tasks]. split_and!; try done.
    by apply NoDup_col_filter.
  - intros i now. rewrite mark_completed_as_update. apply Hupd.
  - intros d salt now. rewrite user_create_run. cbv zeta.
    destruct (decide (Exists _ (users db))) as [|He]; [done |].
    destruct (decide (Exists _ (users db))) as [|Hn]; [done |].
    unfold consistent. cbn [snd users tasks]. split_and!; [| | | done].
    + rewrite fmap_app. by apply NoDup_next_id.
    + by apply NoDup_col_snoc.
    + by apply NoDup_col_snoc.
  - intros i d now. by apply user_update_consistent.
  - intros i. rewrite user_delete_run. case_decide; [| done].
    destruct (UserService.get_by_id_in (users db) i); [| done].
    destruct (filter _ (tasks db)); [| done].
    unfold consistent. cbn [snd users tasks].
    split_and!; try done; by apply NoDup_col_filter.
Qed.

Lemma consistent_preserved_witness :
  consistent sample_db /\
  consistent
    (@UserService.create sample_pwd_context sample_registration "salt" 50
       sample_db).2.
Proof.
  split; [exact sample_db_consistent |].
  exact (proj1 (proj2 (proj2 (proj2 (proj2
           (@consistent_preserved sample_pwd_context sample_db
              sample_db_consistent)))))
           sample_registration "salt" 50).
Defined.

(** X4: on a consistent store the point lookups are exact: [get_by_id],
    [get_by_email] and [get_by_username] of users and [get_by_id] of tasks
    return a record exactly when it is stored and has the key asked for
    (an id being a key the storage can hold, an integer within the signed
    64-bit range); without the uniqueness of the column they would only
    return the first such row. *)
Theorem lookups_exact (db : Session) :
  consistent db ->
  (forall i u,
     returns (UserService.get_by_id i) db (Some u) db <->
     u ∈ users db /\ User.id u = i /\ storable i) /\
  (forall e u,
     returns (UserService.get_by_email e) db (Some u) db <->
     u ∈ users db /\ User.email u = e) /\
  (forall n u,
     returns (UserService.get_by_username n) db (Some u) db <->
     u ∈ users db /\ User.username u = n) /\
  (forall i t,
     returns (TaskService.get_by_id i) db (Some t) db <->
     t ∈ tasks db /\ Task.id t = i /\ storable i).
Proof.
  intros (Hids & Hemails & Hnames & Htasks).
  unfold returns, UserService.get_by_email, UserService.get_by_username, gets,
    UserService.get_by_username_in.
  split_and!; intros k r.
  - rewrite user_get_by_id_run. unfold UserService.get_by_id_in.
    pose proof (first_by_col_exact User.id (users db) k r Hids) as Hex.
    case_decide; [| split; [done | tauto]].
    split; [intros [= Hf]; apply Hex in Hf; tauto |].
    intros (Hr & Hk & _). do 2 f_equal. by apply Hex.
  - rewrite <- (first_by_col_exact User.email (users db) k r Hemails).
    split; [by intros [= ->] | by intros ->].
  - rewrite <- (first_by_col_exact User.username (users db) k r Hnames).
    split; [by intros [= ->] | by intros ->].
  - rewrite task_get_by_id_run. unfold TaskService.get_by_id_in.
    pose proof (first_by_col_exact Task.id (tasks db) k r Htasks) as Hex.
    case_decide; [| split; [done | tauto]].
    split; [intros [= Hf]; apply Hex in Hf; tauto |].
    intros (Hr & Hk & _). do 2 f_equal. by apply Hex.
Qed.

Lemma lookups_exact_witness :
  consistent sample_db /\
  (returns (UserService.get_by_email "b@x.com") sample_db (Some sample_bob)
     sample_db <->
   sample_bob ∈ users sample_db /\ User.email sample_bob = "b@x.com").
Proof.
  split; [exact sample_db_consistent |].
  exact (proj1 (proj2 (lookups_exact sample_db sample_db_consistent))
           "b@x.com" sample_bob).
Defined.





(** ** Updates that change nothing *)

(** X6: an update that sets no field is a no-op: for users and for tasks,
    and an id the storage can hold (signed 64-bit), [update] with an empty
    partial update returns the stored record ([None] for an unknown id) and
    leaves the whole session as it was; in particular [updated_at] is not
    touched, because no UPDATE is emitted.  For an id outside that range the
    lookup raises [OverflowError], the session again untouched. *)
Theorem update_nothing_set (db : Session) (i : Z) (now : datetime) :
  if decide (storable i) then
    UserService.update i (UserUpdate.mk Unset Unset Unset Unset) now db
    = (Ok (UserService.get_by_id_in (users db) i), db) /\
    TaskService.update i (TaskUpdate.mk Unset Unset Unset Unset Unset) now db
    = (Ok (TaskService.get_by_id_in (tasks db) i), db)
  else
    UserService.update i (UserUpdate.mk Unset Unset Unset Unset) now db
    = (Raise OverflowError, db) /\
    TaskService.update i (TaskUpdate.mk Unset Unset Unset Unset Unset) now db
    = (Raise OverflowError, db).
Proof.
  destruct (decide (storable i)) as [Hi|Hi].
  2:{ split; [by apply user_update_overflow | by apply task_update_overflow]. }
  split.
  - destruct (UserService.get_by_id_in (users db) i) as [old|] eqn:Hget.
    + rewrite (user_update_run _ _ _ _ _ Hi Hget). cbv zeta. cbn [merged
        UserUpdate.email UserUpdate.username UserUpdate.full_name
        UserUpdate.is_active].
      by rewrite decide_True.
    + by apply user_update_unknown.
  - destruct (TaskService.get_by_id_in (tasks db) i) as [old|] eqn:Hget.
    + rewrite (task_update_run _ _ _ _ _ Hi Hget). cbv zeta. cbn [merged
        TaskUpdate.title TaskUpdate.description TaskUpdate.status
        TaskUpdate.priority TaskUpdate.due_date].
      by rewrite decide_True.
    + by apply task_update_unknown.
Qed.

Lemma merged_again {A} (f : field A) (old new : A) :
  new = merged f old -> merged f new = new.
Proof. by destruct f. Qed.

Lemma task_update_again (db db' : Session) (i : Z) (d : TaskUpdate.t)
    (now now' : datetime) (t : Task.t) :
  TaskService.update i d now db = (Ok (Some t), db') ->
  TaskService.update i d now' db' = (Ok (Some t), db').
Proof.
  intros Hrun.
  destruct (decide (storable i)) as [Hi|Hi].
  2:{ by rewrite task_update_overflow in Hrun. }
  destruct (TaskService.get_by_id_in (tasks db) i) as [old|] eqn:Hget.
  2:{ by rewrite task_update_unknown in Hrun. }
  destruct (task_update_known db i d now old Hi Hget)
    as [(e & He & _)|(t' & db'' & He & Hm & Hget' & _)]; [congruence |].
  rewrite He in Hrun. injection Hrun as -> ->.
  rewrite (task_update_run _ _ _ _ _ Hi Hget'). cbv zeta.
  destruct Hm as (Hti & Hde & Hst & Hpr & Hdu & _).
  rewrite decide_True; [done |]. unfold Task.load. f_equal.
  - by apply merged_again with (old := Some (Task.title old)).
  - by apply merged_again with (old := Task.description old).
  - by apply merged_again with (old := Some (Task.status old)).
  - by apply merged_again with (old := Task.priority old).
  - by apply merged_again with (old := Task.due_date old).
Qed.



(** X8: [mark_completed] is the update that sets only the status, to
    completed: the two calls give the same result and the same store; and
    it is idempotent: a second call gives what the first gave and leaves the
    store of the first untouched.  For an id the storage can hold (signed
    64-bit) it returns, the completed task or [None]; otherwise it raises
    [OverflowError]: it never fails on a constraint of the table. *)
Theorem mark_completed_is_update (db : Session) (i : Z) (now now' : datetime) :
  TaskService.mark_completed i now db
  = TaskService.update i
      (TaskUpdate.mk Unset Unset (Given (Some COMPLETED)) Unset Unset) now db /\
  TaskService.mark_completed i now' (TaskService.mark_completed i now db).2
  = TaskService.mark_completed i now db /\
  if decide (storable i)
  then exists r, (TaskService.mark_completed i now db).1 = Ok r
  else TaskService.mark_completed i now db = (Raise OverflowError, db).
Proof.
  split; [done |]. rewrite !mark_completed_as_update.
  set (d := TaskUpdate.mk Unset Unset (Given (Some COMPLETED)) Unset Unset).
  destruct (decide (storable i)) as [Hi|Hi].
  2:{ rewrite (task_update_overflow db) by done. cbn [snd].
      split; [by apply task_update_overflow | done]. }
  destruct (TaskService.get_by_id_in (tasks db) i) as [old|] eqn:Hget.
  - assert (Hacc : task_update_accepted old d) by done.
    destruct (task_update_accepted_ok db i d now old Hi Hget Hacc)
      as (t & db' & Hrun).
    rewrite Hrun. cbn [fst snd]. split; [| eauto].
    by apply (task_update_again db db' i d now now').
  - rewrite (task_update_unknown db) by done. cbn [fst snd].
    split; [by apply task_update_unknown | eauto].
Qed.

(** ** Statistics and listings *)

(** X9: the statistics agree with the listings: for every owner and status,
    the count [get_stats] reports under the status value is the total that
    [get_by_owner] reports with that status filter, whatever the page; and
    the four counts add up to the total of the unfiltered listing. *)
Theorem get_stats_matches_totals (db : Session) (owner : Z) (skip limit : Z) :
  (forall s : TaskStatus,
     TaskService.get_stats_in (tasks db) owner !! value s
     = Some (TaskService.get_by_owner_in (tasks db) owner (Some s) skip limit).2) /\
  (forall p i c x : Z,
     TaskService.get_stats_in (tasks db) owner !! "pending" = Some p ->
     TaskService.get_stats_in (tasks db) owner !! "in_progress" = Some i ->
     TaskService.get_stats_in (tasks db) owner !! "completed" = Some c ->
     TaskService.get_stats_in (tasks db) owner !! "cancelled" = Some x ->
     p + i + c + x
     = (TaskService.get_by_owner_in (tasks db) owner None skip limit).2).
Proof.
  split.
  - intros s. by rewrite get_stats_lookup, get_by_owner_in_eq.
  - intros p i c x Hp Hi Hc Hx.
    rewrite (get_stats_lookup _ _ PENDING) in Hp.
    rewrite (get_stats_lookup _ _ IN_PROGRESS) in Hi.
    rewrite (get_stats_lookup _ _ COMPLETED) in Hc.
    rewrite (get_stats_lookup _ _ CANCELLED) in Hx.
    injection Hp as <-. injection Hi as <-. injection Hc as <-.
    injection Hx as <-.
    rewrite get_by_owner_in_eq. cbn [snd]. unfold Orm.count at 5.
    rewrite <- !owner_status_filter. symmetry. apply count_by_status.
Qed.

(** X10: creating a task raises the pending count of its owner by one and
    changes no other count: not the owner's other statuses, and nothing of
    any other owner.  A creation that raises (an owner id or a priority
    outside the signed 64-bit range) changes no count at all. *)
Theorem create_counts_as_pending (db : Session) (task_data : TaskCreate.t)
    (owner_id : Z) (now : datetime) (owner : Z) (s : TaskStatus) :
  TaskService.get_stats_in
    (tasks (TaskService.create task_data owner_id now db).2) owner !! value s
  = match (TaskService.create task_data owner_id now db).1 with
    | Ok _ =>
        (fun n => if decide (owner = owner_id /\ s = PENDING) then n + 1 else n)
          <$> (TaskService.get_stats_in (tasks db) owner !! value s)
    | Raise _ => TaskService.get_stats_in (tasks db) owner !! value s
    end.
Proof.
  rewrite task_create_run. cbv zeta.
  destruct (decide (storable owner_id /\ _)) as [_|_]; [| done].
  rewrite !get_stats_lookup. cbn [fst snd tasks fmap option_fmap option_map].
  f_equal. unfold Orm.count. rewrite filter_app, length_app.
  case_decide as Hcase.
  - destruct Hcase as [-> ->].
    rewrite filter_cons_True by done. cbn [length filter]. rewrite filter_nil. cbn. lia.
  - rewrite filter_cons_False.
    + rewrite filter_nil. cbn. lia.
    + intros [Ho Hs]. cbn in Ho, Hs. apply Hcase. by split.
Qed.

Lemma filter_all {A} (P : A -> Prop) `{forall x, Decision (P x)} (l : list A) :
  (forall x, x ∈ l -> P x) -> filter P l = l.
Proof.
  induction l as [|x l IH]; intros Hl; [done |].
  rewrite filter_cons_True by (apply Hl; by left).
  f_equal. apply IH. intros y Hy. apply Hl. by right.
Qed.

Section counting.
Context {A : Type} (key : A -> Z) (P : A -> Prop) `{forall x, Decision (P x)}.

Local Abbreviation indicator x := (if decide (P x) then 1%nat else 0%nat).

Lemma count_cons (x : A) (rows : list A) :
  length (filter P (x :: rows)) = (indicator x + length (filter P rows))%nat.
Proof. rewrite filter_cons. by destruct (decide (P x)). Qed.

(** One row of a table with unique keys is rewritten. *)
Lemma count_replace (rows : list A) (i : Z) (old row : A) :
  NoDup (key <$> rows) -> old ∈ rows -> key old = i ->
  (length (filter P ((fun r => if decide (key r = i) then row else r) <$> rows))
     + indicator old
   = length (filter P rows) + indicator row)%nat.
Proof.
  induction rows as [|x rows IH]; intros Hk Hold Hi.
  - by apply elem_of_nil in Hold.
  - rewrite fmap_cons in Hk. apply NoDup_cons in Hk as [Hx Hk].
    rewrite fmap_cons, !count_cons.
    destruct (decide (key x = i)) as [Hxi|Hxi].
    + rewrite (replace_absent key) by congruence.
      apply elem_of_cons in Hold as [->|Hold]; [lia |].
      destruct Hx. rewrite Hxi, <- Hi. by apply list_elem_of_fmap_2.
    + apply elem_of_cons in Hold as [->|Hold]; [done |].
      specialize (IH Hk Hold Hi). lia.
Qed.

(** One row of a table with unique keys is deleted. *)
Lemma count_delete (rows : list A) (i : Z) (old : A) :
  NoDup (key <$> rows) -> old ∈ rows -> key old = i ->
  (length (filter P (filter (fun r => key r <> i) rows)) + indicator old
   = length (filter P rows))%nat.
Proof.
  induction rows as [|x rows IH]; intros Hk Hold Hi.
  - by apply elem_of_nil in Hold.
  - rewrite fmap_cons in Hk. apply NoDup_cons in Hk as [Hx Hk].
    rewrite count_cons. destruct (decide (key x = i)) as [Hxi|Hxi].
    + rewrite filter_cons_False by tauto.
      apply elem_of_cons in Hold as [->|Hold].
      * rewrite (filter_all (fun r => key r <> i) rows); [lia |].
        intros r Hr Hri. apply Hx. rewrite Hxi, <- Hri.
        by apply list_elem_of_fmap_2.
      * destruct Hx. rewrite Hxi, <- Hi. by apply list_elem_of_fmap_2.
    + rewrite filter_cons_True by done. rewrite count_cons.
      apply elem_of_cons in Hold as [->|Hold]; [done |].
      specialize (IH Hk Hold Hi). lia.
Qed.
End counting.

(** X11: on a consistent store, completing a stored task (under an id the
    storage can hold, as every stored id is) moves exactly one count of its
    owner from the task's previous status to completed (and nothing when it
    was completed already): for every owner and status the count after, plus
    one if the task was counted there before, is the count before, plus one
    if the completed task is counted there now. *)
Theorem mark_completed_moves_count (db : Session) (i : Z) (now : datetime)
    (old : Task.t) (owner : Z) (s : TaskStatus) :
  consistent db ->
  storable i ->
  TaskService.get_by_id_in (tasks db) i = Some old ->
  exists n n' : Z,
    TaskService.get_stats_in (tasks db) owner !! value s = Some n /\
    TaskService.get_stats_in
      (tasks (TaskService.mark_completed i now db).2) owner !! value s = Some n' /\
    n' + (if decide (Task.owner_id old = owner /\ Task.status old = s)
          then 1 else 0)
    = n + (if decide (Task.owner_id old = owner /\ s = COMPLETED)
           then 1 else 0).
Proof.
  intros (_ & _ & _ & Hk) Hi Hget.
  pose proof (lookup_key_Some Task.id _ _ _ Hget) as [Hid Hold].
  eexists _, _. rewrite !get_stats_lookup. split; [done |]. split; [done |].
  rewrite mark_completed_as_update, (task_update_run _ _ _ _ _ Hi Hget).
  cbv zeta. cbn [merged TaskUpdate.title TaskUpdate.description
    TaskUpdate.status TaskUpdate.priority TaskUpdate.due_date].
  unfold Orm.count.
  destruct (decide (_ = Task.load old)) as [Heq|Hne].
  - cbn [snd]. unfold Task.load in Heq. injection Heq as Hst.
    repeat case_decide; intuition congruence.
  - rewrite (decide_True (P := Forall storable _)).
    2:{ unfold TaskService.update_params. cbn [Task.o_priority].
        rewrite decide_True by done. constructor. }
    unfold TaskService.updated_row.
    cbn [Task.o_title Task.o_status Task.o_description Task.o_priority
         Task.o_due_date snd tasks].
    pose proof (count_replace Task.id (matches owner (Some s)) (tasks db) i old
                  (Task.mk (Task.id old) (Task.title old) (Task.description old)
                     COMPLETED (Task.priority old) (Task.owner_id old)
                     (Task.created_at old) (Some now) (Task.due_date old))
                  Hk Hold Hid) as Hcount.
    repeat case_decide; try lia; exfalso; unfold matches in *;
      cbn [Task.owner_id Task.status] in *; intuition congruence.
Qed.

Lemma mark_completed_moves_count_witness :
  consistent sample_db /\ storable 1 /\
  TaskService.get_by_id_in (tasks sample_db) 1
  = Some (Task.mk 1 "T1" None PENDING (Some 3) 1 20 None None) /\
  exists n n' : Z,
    TaskService.get_stats_in (tasks sample_db) 1 !! value COMPLETED = Some n /\
    TaskService.get_stats_in
      (tasks (TaskService.mark_completed 1 99 sample_db).2) 1 !! value COMPLETED
    = Some n' /\
    n' + 0 = n + 1.
Proof.
  assert (H1 : storable 1) by (unfold storable; lia).
  split; [exact sample_db_consistent |]. split; [exact H1 |].
  split; [reflexivity |].
  exact (mark_completed_moves_count sample_db 1 99 _ 1 COMPLETED
           sample_db_consistent H1 eq_refl).
Defined.

(** X12: on a consistent store, deleting a stored task (under an id the
    storage can hold, as every stored id is) lowers by one the count of its
    owner in its status and changes no other count. *)
Theorem task_delete_lowers_count (db : Session) (i : Z) (old : Task.t)
    (owner : Z) (s : TaskStatus) :
  consistent db ->
  storable i ->
  TaskService.get_by_id_in (tasks db) i = Some old ->
  exists n n' : Z,
    TaskService.get_stats_in (tasks db) owner !! value s = Some n /\
    TaskService.get_stats_in (tasks (TaskService.delete i db).2) owner !! value s
    = Some n' /\
    n' + (if decide (Task.owner_id old = owner /\ Task.status old = s)
          then 1 else 0)
    = n.
Proof.
  intros (_ & _ & _ & Hk) Hi Hget.
  pose proof (lookup_key_Some Task.id _ _ _ Hget) as [Hid Hold].
  eexists _, _. rewrite !get_stats_lookup. split; [done |]. split; [done |].
  rewrite task_delete_run, decide_True, Hget by done.
  cbn [snd tasks]. unfold Orm.count.
  pose proof (count_delete Task.id (matches owner (Some s)) (tasks db) i old
                Hk Hold Hid) as Hcount.
  repeat case_decide; try lia; exfalso; unfold matches in *;
    intuition congruence.
Qed.

Lemma task_delete_lowers_count_witness :
  consistent sample_db /\ storable 2 /\
  TaskService.get_by_id_in (tasks sample_db) 2
  = Some (Task.mk 2 "T2" None CANCELLED (Some 1) 1 30 None None) /\
  exists n n' : Z,
    TaskService.get_stats_in (tasks sample_db) 1 !! value CANCELLED = Some n /\
    TaskService.get_stats_in (tasks (TaskService.delete 2 sample_db).2) 1
      !! value CANCELLED = Some n' /\
    n' + 1 = n.
Proof.
  assert (H2 : storable 2) by (unfold storable; lia).
  split; [exact sample_db_consistent |]. split; [exact H2 |].
  split; [reflexivity |].
  exact (task_delete_lowers_count sample_db 2 _ 1 CANCELLED
           sample_db_consistent H2 eq_refl).
Defined.

(** * The request boundary *)







Lemma respond_all_length {A B} (to_response : A -> option B) (objs : list A)
    (rs : list B) :
  Routes.respond_all to_response objs = Reply rs ->
  mapM to_response objs = Some rs /\ length rs = length objs.
Proof.
  unfold Routes.respond_all.
  destruct (mapM to_response objs) as [rs'|] eqn:Hm; [| done].
  intros [= ->]. split; [done |]. symmetry. by apply length_mapM in Hm.
Qed.

(** X15: the task-listing handler, for page >= 1, per_page >= 0 and a stored
    user, the user id and per_page being integers the storage can hold.
    When the offset (page - 1) * per_page is within the signed 64-bit range,
    [list_user_tasks] fails with no exception of the store and leaves the
    store alone: it replies with a listing, or with the validation error of
    a response conversion, never with an HTTP error; a listing echoes page
    and per_page, reports as total the size of the whole filtered set, and
    holds the conversions, in order, of the window of at most per_page tasks
    that starts at that offset.  When the offset is outside that range (page
    has no upper bound), the handler fails with [OverflowError].  Page
    [p + 1] starts where page [p] ends, and a page whose offset is at or
    past the total is empty. *)
Theorem list_user_tasks_route `{ResponseSchemas} (db : Session) (user_id : Z)
    (sf : option TaskStatus) (page per_page : Z) :
  1 <= page -> 0 <= per_page ->
  storable user_id -> storable per_page ->
  is_Some (UserService.get_by_id_in (users db) user_id) ->
  let window p :=
    (TaskService.get_by_owner_in (tasks db) user_id sf ((p - 1) * per_page)
       per_page).1 in
  let total := Z.of_nat (length (filter (matches user_id sf) (tasks db))) in
  (if decide (storable ((page - 1) * per_page)) then
     exists r,
       Routes.list_user_tasks user_id sf page per_page db = (Ok r, db) /\
       (forall c d, r <> HTTPException c d) /\
       (forall resp, r = Reply resp ->
          mapM task_to_response (window page) = Some (Routes.list_tasks resp) /\
          Z.of_nat (length (Routes.list_tasks resp)) <= per_page /\
          Routes.list_total resp = total /\
          Routes.list_page resp = page /\
          Routes.list_per_page resp = per_page)
   else
     raises_exn (Routes.list_user_tasks user_id sf page per_page) db
       OverflowError) /\
  window page ++ window (page + 1)
  = (TaskService.get_by_owner_in (tasks db) user_id sf ((page - 1) * per_page)
       (per_page + per_page)).1 /\
  (total <= (page - 1) * per_page -> window page = []).
Proof.
  intros Hpage Hper Hid Hpp [owner Hget] window total.
  unfold window, total. rewrite !get_by_owner_in_eq. cbn [fst].
  split_and!.
  - unfold Routes.list_user_tasks, raises_exn.
    rewrite user_get_by_id_bind, (decide_True (P := storable user_id)), Hget
      by done.
    unfold mbind, M_bind, bind. rewrite get_by_owner_run.
    destruct (decide (storable ((page - 1) * per_page))) as [Hs|Hs].
    2:{ rewrite decide_False; [done | tauto]. }
    rewrite decide_True by done. rewrite get_by_owner_in_eq.
    unfold mret, M_ret, ret.
    set (objs := Orm.limit per_page _).
    assert (Hlen : Z.of_nat (length objs) <= per_page).
    { unfold objs. rewrite window_length by done. lia. }
    eexists. split; [done |].
    destruct (Routes.respond_all task_to_response objs) as [rs| |] eqn:Hrs.
    + split; [done |]. intros resp [= <-]. cbn.
      apply respond_all_length in Hrs as [Hm Hl]. rewrite Hl.
      split_and!; done.
    + unfold Routes.respond_all in Hrs. by destruct (mapM _ objs).
    + by split.
  - replace ((page + 1 - 1) * per_page) with ((page - 1) * per_page + per_page)
      by lia.
    apply window_concat; nia.
  - intros Hpast. unfold Orm.offset.
    rewrite drop_ge; [apply limit_nil |].
    rewrite order_by_desc_perm. lia.
Qed.

Lemma list_user_tasks_route_witness :
  1 <= 2 /\ 0 <= 2 /\ storable 1 /\ storable 2 /\
  is_Some (UserService.get_by_id_in (users sample_db) 1) /\
  (exists r,
     @Routes.list_user_tasks sample_schemas 1 None 2 2 sample_db
     = (Ok r, sample_db)) /\
  (TaskService.get_by_owner_in (tasks sample_db) 1 None ((2 - 1) * 2) 2).1
    ++ (TaskService.get_by_owner_in (tasks sample_db) 1 None ((2 + 1 - 1) * 2) 2).1
  = (TaskService.get_by_owner_in (tasks sample_db) 1 None ((2 - 1) * 2) (2 + 2)).1.
Proof.
  assert (H1 : storable 1) by (unfold storable; lia).
  assert (H2 : storable 2) by (unfold storable; lia).
  assert (Huser : is_Some (UserService.get_by_id_in (users sample_db) 1))
    by by eexists.
  split; [lia |]. split; [lia |]. split; [exact H1 |]. split; [exact H2 |].
  split; [exact Huser |].
  destruct (@list_user_tasks_route sample_schemas sample_db 1 None 2 2
              ltac:(lia) ltac:(lia) H1 H2 Huser)
    as ((r & Hrun & _) & Htile & _).
  split; [by exists r | exact Htile].
Defined.






